(** * The CLR debug header: a table directory built once at start-up

    A shallow embedding of [src/coreclr/debug/ee/clrdebugheader.cpp]
    (the static tables, the registration macros and
    [PopulateClrDebugHeaders]) and of [src/native/minipal/getexepath.h]
    ([minipal_getexepath]), followed by the properties of the builder pass
    and of the path lookup. *)

From Stdlib Require Import ZArith Lia Bool.
From stdpp Require Import base list strings.

Open Scope Z_scope.

(** ** Machine integers *)

(** [uint32_t] arithmetic wraps modulo 2^32. *)
Definition u32 (z : Z) : Z := z mod 2 ^ 32.

(** ** Pointers *)

(** Every address the builder takes is the address of a named object: one
    of the six static arrays of the file, or a runtime global named in a
    [MAKE_GLOBAL_ENTRY]. *)
Inductive symbol : Type :=
| sym_s_DebugTables
| sym_s_DebugGlobals
| sym_s_DebugTypes
| sym_s_DebugFields
| sym_s_DebugBases
| sym_s_DebugDefines
| sym_global (Name : string).

Inductive pointer : Type :=
| nullptr
| address_of (s : symbol).

(** [const char*]: null, or a string literal. *)
Definition cstr : Type := option string.

(** ** Row schemas (lines 7-37) *)

Record DebugTable : Type := mkDebugTable
  { TableName : cstr; TableElements : pointer; RowCount : Z }.

Record DebugGlobalRow : Type := mkDebugGlobalRow
  { GlobalName : cstr; Address : pointer }.

Record DebugTypeRow : Type := mkDebugTypeRow
  { TypeName : cstr; Size : Z }.

Record DebugMemberOffsetRow : Type := mkDebugMemberOffsetRow
  { MemberName : cstr; TypeId : Z; Offset : Z }.

Record DebugDefineRow : Type := mkDebugDefineRow
  { DefineName : cstr; DefineValue : Z }.

(** ** Bounded storage (lines 39-55) *)

Definition DebugTablesArraySize : Z := 5.
Definition DebugGlobalsArraySize : Z := 50.
Definition DebugTypesArraySize : Z := 100.
Definition DebugFieldsArraySize : Z := 200.
Definition DebugBasesArraySize : Z := 100.
Definition DebugDefinesArraySize : Z := 50.

(** ** The header (lines 76-102) *)

Record ClrDebugHeader_t : Type := mkClrDebugHeader
  { Cookie : list Byte.byte;
    MajorVersion : Z;
    MinorVersion : Z;
    DebugTables : pointer;
    DebugTableCount : Z }.

(** The default member initialisers of [struct ClrDebugHeader]. *)
Definition ClrDebugHeader_init : ClrDebugHeader_t :=
  {| Cookie := [Byte.x20; Byte.x43; Byte.x44; Byte.x48];
     MajorVersion := 2;
     MinorVersion := 0;
     DebugTables := address_of sym_s_DebugTables;
     DebugTableCount := 0 |}.

(** ** Program state

    The static storage of the translation unit, the locals of
    [PopulateClrDebugHeaders] (the six position counters and the
    [uint32_t <TypeIdName>] variables the type macro declares), and one
    ghost flag: [stray_store] is raised by a store whose index is past the
    end of its array.  Such a store is undefined behaviour in C++; on the
    machine it lands outside the array, so the array itself is left as it
    was, and nothing is promised about the other objects from then on. *)
Record State : Type := mkState
  { s_DebugTables : list DebugTable;
    s_DebugGlobals : list DebugGlobalRow;
    s_DebugTypes : list DebugTypeRow;
    s_DebugFields : list DebugMemberOffsetRow;
    s_DebugBases : list DebugMemberOffsetRow;
    s_DebugDefines : list DebugDefineRow;
    ClrDebugHeader : ClrDebugHeader_t;
    currentTablePos : Z;
    currentGlobalPos : Z;
    currentTypePos : Z;
    currentBasePos : Z;
    currentFieldPos : Z;
    currentDefinePos : Z;
    TypeIdVars : list (string * Z);
    stray_store : bool }.

(** Objects with static storage duration are zero-initialised. *)
Definition zero_DebugTable : DebugTable := mkDebugTable None nullptr 0.
Definition zero_DebugGlobalRow : DebugGlobalRow := mkDebugGlobalRow None nullptr.
Definition zero_DebugTypeRow : DebugTypeRow := mkDebugTypeRow None 0.
Definition zero_DebugMemberOffsetRow : DebugMemberOffsetRow :=
  mkDebugMemberOffsetRow None 0 0.
Definition zero_DebugDefineRow : DebugDefineRow := mkDebugDefineRow None 0.

Definition zeroed {A} (size : Z) (zero : A) : list A :=
  replicate (Z.to_nat size) zero.

(** The state on entry to [PopulateClrDebugHeaders], after lines 173-178. *)
Definition initial_state : State :=
  {| s_DebugTables := zeroed DebugTablesArraySize zero_DebugTable;
     s_DebugGlobals := zeroed DebugGlobalsArraySize zero_DebugGlobalRow;
     s_DebugTypes := zeroed DebugTypesArraySize zero_DebugTypeRow;
     s_DebugFields := zeroed DebugFieldsArraySize zero_DebugMemberOffsetRow;
     s_DebugBases := zeroed DebugBasesArraySize zero_DebugMemberOffsetRow;
     s_DebugDefines := zeroed DebugDefinesArraySize zero_DebugDefineRow;
     ClrDebugHeader := ClrDebugHeader_init;
     currentTablePos := 0;
     currentGlobalPos := 0;
     currentTypePos := 0;
     currentBasePos := 0;
     currentFieldPos := 0;
     currentDefinePos := 0;
     TypeIdVars := [];
     stray_store := false |}.

(** ** Build configuration

    What the translation unit takes from the rest of the runtime: whether
    [ASSERT] is compiled in, whether [FEATURE_EH_FUNCLETS] is defined, and
    the layout facts ([sizeof], [offsetof], named constants) of the runtime
    types, which are opaque here. *)
Record Config : Type := mkConfig
  { assertions_enabled : bool;
    defined_FEATURE_EH_FUNCLETS : bool;
    sizeof : string -> Z;
    offsetof : string -> string -> Z;
    constant : string -> Z }.

(** ** The builder monad: state, a failed assertion, or a rejected program *)

Inductive outcome (A : Type) : Type :=
| Returned (a : A) (st : State)
| AssertionFailed (st : State)
| IllFormed.
Arguments Returned {A} a st.
Arguments AssertionFailed {A} st.
Arguments IllFormed {A}.

Definition M (A : Type) : Type := State -> outcome A.

Definition ret {A} (a : A) : M A := fun st => Returned a st.

Definition bind {A B} (m : M A) (k : A -> M B) : M B :=
  fun st =>
    match m st with
    | Returned a st' => k a st'
    | AssertionFailed st' => AssertionFailed st'
    | IllFormed => IllFormed
    end.

Declare Scope builder_scope.
Delimit Scope builder_scope with builder.
Notation "'let*' x ':=' m 'in' k" := (bind m (fun x => k))
  (at level 10, x name, m at level 100, k at level 200) : builder_scope.
Notation "m ';;;' k" := (bind m (fun _ => k))
  (at level 100, k at level 200, right associativity) : builder_scope.
Open Scope builder_scope.

Definition get {A} (f : State -> A) : M A := fun st => Returned (f st) st.
Definition modify (f : State -> State) : M unit := fun st => Returned tt (f st).

(** ** State updates *)

Definition set_s_DebugTables (v : list DebugTable) (st : State) : State :=
  mkState v (s_DebugGlobals st) (s_DebugTypes st) (s_DebugFields st)
    (s_DebugBases st) (s_DebugDefines st) (ClrDebugHeader st)
    (currentTablePos st) (currentGlobalPos st) (currentTypePos st)
    (currentBasePos st) (currentFieldPos st) (currentDefinePos st)
    (TypeIdVars st) (stray_store st).

Definition set_s_DebugGlobals (v : list DebugGlobalRow) (st : State) : State :=
  mkState (s_DebugTables st) v (s_DebugTypes st) (s_DebugFields st)
    (s_DebugBases st) (s_DebugDefines st) (ClrDebugHeader st)
    (currentTablePos st) (currentGlobalPos st) (currentTypePos st)
    (currentBasePos st) (currentFieldPos st) (currentDefinePos st)
    (TypeIdVars st) (stray_store st).

Definition set_s_DebugTypes (v : list DebugTypeRow) (st : State) : State :=
  mkState (s_DebugTables st) (s_DebugGlobals st) v (s_DebugFields st)
    (s_DebugBases st) (s_DebugDefines st) (ClrDebugHeader st)
    (currentTablePos st) (currentGlobalPos st) (currentTypePos st)
    (currentBasePos st) (currentFieldPos st) (currentDefinePos st)
    (TypeIdVars st) (stray_store st).

Definition set_s_DebugFields (v : list DebugMemberOffsetRow) (st : State) : State :=
  mkState (s_DebugTables st) (s_DebugGlobals st) (s_DebugTypes st) v
    (s_DebugBases st) (s_DebugDefines st) (ClrDebugHeader st)
    (currentTablePos st) (currentGlobalPos st) (currentTypePos st)
    (currentBasePos st) (currentFieldPos st) (currentDefinePos st)
    (TypeIdVars st) (stray_store st).

Definition set_s_DebugBases (v : list DebugMemberOffsetRow) (st : State) : State :=
  mkState (s_DebugTables st) (s_DebugGlobals st) (s_DebugTypes st)
    (s_DebugFields st) v (s_DebugDefines st) (ClrDebugHeader st)
    (currentTablePos st) (currentGlobalPos st) (currentTypePos st)
    (currentBasePos st) (currentFieldPos st) (currentDefinePos st)
    (TypeIdVars st) (stray_store st).

Definition set_s_DebugDefines (v : list DebugDefineRow) (st : State) : State :=
  mkState (s_DebugTables st) (s_DebugGlobals st) (s_DebugTypes st)
    (s_DebugFields st) (s_DebugBases st) v (ClrDebugHeader st)
    (currentTablePos st) (currentGlobalPos st) (currentTypePos st)
    (currentBasePos st) (currentFieldPos st) (currentDefinePos st)
    (TypeIdVars st) (stray_store st).

Definition set_ClrDebugHeader (v : ClrDebugHeader_t) (st : State) : State :=
  mkState (s_DebugTables st) (s_DebugGlobals st) (s_DebugTypes st)
    (s_DebugFields st) (s_DebugBases st) (s_DebugDefines st) v
    (currentTablePos st) (currentGlobalPos st) (currentTypePos st)
    (currentBasePos st) (currentFieldPos st) (currentDefinePos st)
    (TypeIdVars st) (stray_store st).

Definition set_currentTablePos (v : Z) (st : State) : State :=
  mkState (s_DebugTables st) (s_DebugGlobals st) (s_DebugTypes st)
    (s_DebugFields st) (s_DebugBases st) (s_DebugDefines st)
    (ClrDebugHeader st) v (currentGlobalPos st) (currentTypePos st)
    (currentBasePos st) (currentFieldPos st) (currentDefinePos st)
    (TypeIdVars st) (stray_store st).

Definition set_currentGlobalPos (v : Z) (st : State) : State :=
  mkState (s_DebugTables st) (s_DebugGlobals st) (s_DebugTypes st)
    (s_DebugFields st) (s_DebugBases st) (s_DebugDefines st)
    (ClrDebugHeader st) (currentTablePos st) v (currentTypePos st)
    (currentBasePos st) (currentFieldPos st) (currentDefinePos st)
    (TypeIdVars st) (stray_store st).

Definition set_currentTypePos (v : Z) (st : State) : State :=
  mkState (s_DebugTables st) (s_DebugGlobals st) (s_DebugTypes st)
    (s_DebugFields st) (s_DebugBases st) (s_DebugDefines st)
    (ClrDebugHeader st) (currentTablePos st) (currentGlobalPos st) v
    (currentBasePos st) (currentFieldPos st) (currentDefinePos st)
    (TypeIdVars st) (stray_store st).

Definition set_currentBasePos (v : Z) (st : State) : State :=
  mkState (s_DebugTables st) (s_DebugGlobals st) (s_DebugTypes st)
    (s_DebugFields st) (s_DebugBases st) (s_DebugDefines st)
    (ClrDebugHeader st) (currentTablePos st) (currentGlobalPos st)
    (currentTypePos st) v (currentFieldPos st) (currentDefinePos st)
    (TypeIdVars st) (stray_store st).

Definition set_currentFieldPos (v : Z) (st : State) : State :=
  mkState (s_DebugTables st) (s_DebugGlobals st) (s_DebugTypes st)
    (s_DebugFields st) (s_DebugBases st) (s_DebugDefines st)
    (ClrDebugHeader st) (currentTablePos st) (currentGlobalPos st)
    (currentTypePos st) (currentBasePos st) v (currentDefinePos st)
    (TypeIdVars st) (stray_store st).

Definition set_currentDefinePos (v : Z) (st : State) : State :=
  mkState (s_DebugTables st) (s_DebugGlobals st) (s_DebugTypes st)
    (s_DebugFields st) (s_DebugBases st) (s_DebugDefines st)
    (ClrDebugHeader st) (currentTablePos st) (currentGlobalPos st)
    (currentTypePos st) (currentBasePos st) (currentFieldPos st) v
    (TypeIdVars st) (stray_store st).

Definition set_TypeIdVars (v : list (string * Z)) (st : State) : State :=
  mkState (s_DebugTables st) (s_DebugGlobals st) (s_DebugTypes st)
    (s_DebugFields st) (s_DebugBases st) (s_DebugDefines st)
    (ClrDebugHeader st) (currentTablePos st) (currentGlobalPos st)
    (currentTypePos st) (currentBasePos st) (currentFieldPos st)
    (currentDefinePos st) v (stray_store st).

Definition set_stray_store (v : bool) (st : State) : State :=
  mkState (s_DebugTables st) (s_DebugGlobals st) (s_DebugTypes st)
    (s_DebugFields st) (s_DebugBases st) (s_DebugDefines st)
    (ClrDebugHeader st) (currentTablePos st) (currentGlobalPos st)
    (currentTypePos st) (currentBasePos st) (currentFieldPos st)
    (currentDefinePos st) (TypeIdVars st) v.

Definition set_DebugTableCount (v : Z) (h : ClrDebugHeader_t) : ClrDebugHeader_t :=
  mkClrDebugHeader (Cookie h) (MajorVersion h) (MinorVersion h) (DebugTables h) v.

(** ** Array stores

    [arr[i] = x] for an index of type [uint32_t].  In range the element is
    replaced; out of range the array keeps its contents (stdpp's insert
    does nothing there) and the store is reported through [past_end]. *)
Definition array_store {A} (arr : list A) (i : Z) (x : A) : list A :=
  <[Z.to_nat i := x]> arr.

Definition past_end {A} (arr : list A) (i : Z) : bool :=
  Z.of_nat (length arr) <=? i.

Definition flag_stray (b : bool) (st : State) : State :=
  set_stray_store (stray_store st || b) st.

(** ** Local variables [uint32_t <TypeIdName>] *)

Fixpoint lookup_var (x : string) (vars : list (string * Z)) : option Z :=
  match vars with
  | [] => None
  | (y, v) :: vars' => if String.eqb x y then Some v else lookup_var x vars'
  end.

(** Reading an identifier that was never declared does not compile.  The
    identifiers the body hands to the field and base macros are all
    variables a type macro declared; no other [uint32_t] in scope is
    passed as a TypeId, and none is modelled as one. *)
Definition read_var (x : string) : M Z :=
  fun st =>
    match lookup_var x (TypeIdVars st) with
    | Some v => Returned v st
    | None => IllFormed
    end.

(** [uint32_t x = v;] in the one block scope of the function: a second
    declaration of the same name does not compile. *)
Definition declare_var (x : string) (v : Z) : M unit :=
  fun st =>
    match lookup_var x (TypeIdVars st) with
    | Some _ => IllFormed
    | None => Returned tt (set_TypeIdVars ((x, v) :: TypeIdVars st) st)
    end.

(** ** Statements of [PopulateClrDebugHeaders]

    The body of the function is a straight line of macro invocations
    followed by one assignment.  The arguments are kept as the source
    writes them: type, field and constant names as their token text, the
    count handed to [MAKE_TABLE] as the counter variable it names. *)

Inductive counter : Type :=
| TablePos | GlobalPos | TypePos | BasePos | FieldPos | DefinePos.

Definition current (c : counter) (st : State) : Z :=
  match c with
  | TablePos => currentTablePos st
  | GlobalPos => currentGlobalPos st
  | TypePos => currentTypePos st
  | BasePos => currentBasePos st
  | FieldPos => currentFieldPos st
  | DefinePos => currentDefinePos st
  end.

Inductive statement : Type :=
| MAKE_GLOBAL_ENTRY (Name : string)
| MAKE_TYPE_ENTRY_WITH_ID (TypeName TypeIdName : string)
| MAKE_BASE_TYPE_ENTRY_WITH_ID (TypeName TypeIdName BaseType FieldName : string)
| MAKE_FIELD_ENTRY_WITH_ID (TypeName TypeIdName FieldName : string)
| MAKE_DEFINE_ENTRY (Name Value : string)
| MAKE_TABLE (TableName : string) (TableAddress : symbol) (TableCount : counter)
| Assign_DebugTableCount.

(** The three convenience macros paste [TypeId] onto the type name
    ([TypeName##TypeId], lines 133, 143, 153). *)
Definition MAKE_TYPE_ENTRY (TypeName : string) : statement :=
  MAKE_TYPE_ENTRY_WITH_ID TypeName (TypeName +:+ "TypeId").

Definition MAKE_BASE_TYPE_ENTRY (TypeName BaseType FieldName : string) : statement :=
  MAKE_BASE_TYPE_ENTRY_WITH_ID TypeName (TypeName +:+ "TypeId") BaseType FieldName.

Definition MAKE_FIELD_ENTRY (TypeName FieldName : string) : statement :=
  MAKE_FIELD_ENTRY_WITH_ID TypeName (TypeName +:+ "TypeId") FieldName.

Section Builder.
Context (cfg : Config).

(** Modelled from the spec: the [ASSERT] macro is defined outside the two
    source files.  The spec describes it as a debug-only assertion: where
    assertions are compiled in, a false condition is fatal and halts the
    builder; in a release build the macro expands to nothing. *)
Definition ASSERT (cond : bool) : M unit :=
  fun st =>
    if assertions_enabled cfg && negb cond
    then AssertionFailed st
    else Returned tt st.

(** [#define baseoffset(type, base, field)] (line 114).  The subtraction is
    done in [size_t]; the result then initialises a [uint32_t] member, and
    reducing modulo the width of [size_t] (32 or 64 bits) and then modulo
    2^32 is reducing modulo 2^32 once, which the stores below do. *)
Definition baseoffset (type base field : string) : Z :=
  offsetof cfg type field - offsetof cfg base field.

Definition store_s_DebugTables (i : Z) (row : DebugTable) : M unit :=
  modify (fun st =>
    flag_stray (past_end (s_DebugTables st) i)
      (set_s_DebugTables (array_store (s_DebugTables st) i row) st)).

Definition store_s_DebugGlobals (i : Z) (row : DebugGlobalRow) : M unit :=
  modify (fun st =>
    flag_stray (past_end (s_DebugGlobals st) i)
      (set_s_DebugGlobals (array_store (s_DebugGlobals st) i row) st)).

Definition store_s_DebugTypes (i : Z) (row : DebugTypeRow) : M unit :=
  modify (fun st =>
    flag_stray (past_end (s_DebugTypes st) i)
      (set_s_DebugTypes (array_store (s_DebugTypes st) i row) st)).

Definition store_s_DebugFields (i : Z) (row : DebugMemberOffsetRow) : M unit :=
  modify (fun st =>
    flag_stray (past_end (s_DebugFields st) i)
      (set_s_DebugFields (array_store (s_DebugFields st) i row) st)).

Definition store_s_DebugBases (i : Z) (row : DebugMemberOffsetRow) : M unit :=
  modify (fun st =>
    flag_stray (past_end (s_DebugBases st) i)
      (set_s_DebugBases (array_store (s_DebugBases st) i row) st)).

Definition store_s_DebugDefines (i : Z) (row : DebugDefineRow) : M unit :=
  modify (fun st =>
    flag_stray (past_end (s_DebugDefines st) i)
      (set_s_DebugDefines (array_store (s_DebugDefines st) i row) st)).

(** The macro bodies (lines 116-169) and the final assignment (line 489).
    Each macro stores at the current position, increments the position,
    and only then asserts that the new position is within the array. *)
Definition expand (s : statement) : M unit :=
  match s with
  | MAKE_GLOBAL_ENTRY Name =>
      let* pos := get currentGlobalPos in
      store_s_DebugGlobals pos
        {| GlobalName := Some Name; Address := address_of (sym_global Name) |} ;;;
      modify (fun st => set_currentGlobalPos (u32 (currentGlobalPos st + 1)) st) ;;;
      let* pos' := get currentGlobalPos in
      ASSERT (pos' <=? DebugGlobalsArraySize)
  | MAKE_TYPE_ENTRY_WITH_ID TypeName TypeIdName =>
      let* id := get currentTypePos in
      declare_var TypeIdName id ;;;
      let* pos := get currentTypePos in
      store_s_DebugTypes pos
        {| TypeName := Some TypeName; Size := u32 (sizeof cfg TypeName) |} ;;;
      modify (fun st => set_currentTypePos (u32 (currentTypePos st + 1)) st) ;;;
      let* pos' := get currentTypePos in
      ASSERT (pos' <=? DebugTypesArraySize)
  | MAKE_BASE_TYPE_ENTRY_WITH_ID TypeName TypeIdName BaseType FieldName =>
      let* pos := get currentBasePos in
      let* id := read_var TypeIdName in
      store_s_DebugBases pos
        {| MemberName := Some BaseType;
           TypeId := id;
           Offset := u32 (baseoffset TypeName BaseType FieldName) |} ;;;
      modify (fun st => set_currentBasePos (u32 (currentBasePos st + 1)) st) ;;;
      let* pos' := get currentBasePos in
      ASSERT (pos' <=? DebugBasesArraySize)
  | MAKE_FIELD_ENTRY_WITH_ID TypeName TypeIdName FieldName =>
      let* pos := get currentFieldPos in
      let* id := read_var TypeIdName in
      store_s_DebugFields pos
        {| MemberName := Some FieldName;
           TypeId := id;
           Offset := u32 (offsetof cfg TypeName FieldName) |} ;;;
      modify (fun st => set_currentFieldPos (u32 (currentFieldPos st + 1)) st) ;;;
      let* pos' := get currentFieldPos in
      ASSERT (pos' <=? DebugFieldsArraySize)
  | MAKE_DEFINE_ENTRY Name Value =>
      let* pos := get currentDefinePos in
      store_s_DebugDefines pos
        {| DefineName := Some Name; DefineValue := u32 (constant cfg Value) |} ;;;
      modify (fun st => set_currentDefinePos (u32 (currentDefinePos st + 1)) st) ;;;
      let* pos' := get currentDefinePos in
      ASSERT (pos' <=? DebugDefinesArraySize)
  | MAKE_TABLE TableName TableAddress TableCount =>
      let* pos := get currentTablePos in
      let* count := get (current TableCount) in
      store_s_DebugTables pos
        {| TableName := Some TableName;
           TableElements := address_of TableAddress;
           RowCount := count |} ;;;
      modify (fun st => set_currentTablePos (u32 (currentTablePos st + 1)) st) ;;;
      let* pos' := get currentTablePos in
      ASSERT (pos' <=? DebugTablesArraySize)
  | Assign_DebugTableCount =>
      modify (fun st =>
        set_ClrDebugHeader
          (set_DebugTableCount (currentTablePos st) (ClrDebugHeader st)) st)
  end.

(** Statements in sequence; the first one that does not return ends the
    run. *)
Fixpoint run (p : list statement) : M unit :=
  match p with
  | [] => ret tt
  | s :: p' => expand s ;;; run p'
  end.

End Builder.

(** ** The body of [PopulateClrDebugHeaders] (lines 180-489) *)

(** Lines 180-477, one statement per line of the source. *)
Definition registrations_head : list statement :=
  [ MAKE_GLOBAL_ENTRY "ThreadStore::s_pThreadStore";
    MAKE_TYPE_ENTRY "ThreadStore";
    MAKE_FIELD_ENTRY "ThreadStore" "m_ThreadList";
    MAKE_TYPE_ENTRY "Thread";
    MAKE_FIELD_ENTRY "Thread" "m_Link";
    MAKE_FIELD_ENTRY "Thread" "m_ThreadId";
    MAKE_FIELD_ENTRY "Thread" "m_OSThreadId";
    MAKE_FIELD_ENTRY "Thread" "m_LastThrownObjectHandle";
    MAKE_FIELD_ENTRY "Thread" "m_alloc_context";
    MAKE_TYPE_ENTRY "MethodTable";
    MAKE_FIELD_ENTRY "MethodTable" "m_dwFlags";
    MAKE_FIELD_ENTRY "MethodTable" "m_wFlags2";
    MAKE_FIELD_ENTRY "MethodTable" "m_BaseSize";
    MAKE_FIELD_ENTRY "MethodTable" "m_wToken";
    MAKE_FIELD_ENTRY "MethodTable" "m_wNumVirtuals";
    MAKE_FIELD_ENTRY "MethodTable" "m_wNumInterfaces";
    MAKE_FIELD_ENTRY "MethodTable" "m_pParentMethodTable";
    MAKE_FIELD_ENTRY "MethodTable" "m_pLoaderModule";
    MAKE_FIELD_ENTRY "MethodTable" "m_pWriteableData";
    MAKE_FIELD_ENTRY "MethodTable" "m_pCanonMT";
    MAKE_FIELD_ENTRY "MethodTable" "m_pEEClass";
    MAKE_FIELD_ENTRY "MethodTable" "m_pPerInstInfo";
    MAKE_FIELD_ENTRY "MethodTable" "m_ElementTypeHnd";
    MAKE_FIELD_ENTRY "MethodTable" "m_pMultipurposeSlot1";
    MAKE_FIELD_ENTRY "MethodTable" "m_pInterfaceMap";
    MAKE_FIELD_ENTRY "MethodTable" "m_pMultipurposeSlot2";
    MAKE_TYPE_ENTRY "MethodDesc";
    MAKE_FIELD_ENTRY "MethodDesc" "m_chunkIndex";
    MAKE_FIELD_ENTRY "MethodDesc" "m_wFlags";
    MAKE_FIELD_ENTRY "MethodDesc" "m_bFlags2";
    MAKE_FIELD_ENTRY "MethodDesc" "m_wFlags3AndTokenRemainder";
    MAKE_FIELD_ENTRY "MethodDesc" "m_wSlotNumber";
    MAKE_TYPE_ENTRY "FCallMethodDesc";
    MAKE_BASE_TYPE_ENTRY "FCallMethodDesc" "MethodDesc" "m_chunkIndex";
    MAKE_TYPE_ENTRY "NDirectMethodDesc";
    MAKE_BASE_TYPE_ENTRY "NDirectMethodDesc" "MethodDesc" "m_chunkIndex";
    MAKE_TYPE_ENTRY "EEImplMethodDesc";
    MAKE_BASE_TYPE_ENTRY "EEImplMethodDesc" "MethodDesc" "m_chunkIndex";
    MAKE_TYPE_ENTRY "ArrayMethodDesc";
    MAKE_BASE_TYPE_ENTRY "ArrayMethodDesc" "MethodDesc" "m_chunkIndex";
    MAKE_TYPE_ENTRY "InstantiatedMethodDesc";
    MAKE_BASE_TYPE_ENTRY "InstantiatedMethodDesc" "MethodDesc" "m_chunkIndex";
    MAKE_TYPE_ENTRY "DynamicMethodDesc";
    MAKE_BASE_TYPE_ENTRY "DynamicMethodDesc" "MethodDesc" "m_chunkIndex";
    MAKE_TYPE_ENTRY "MethodDescChunk";
    MAKE_FIELD_ENTRY "MethodDescChunk" "m_methodTable";
    MAKE_FIELD_ENTRY "MethodDescChunk" "m_next";
    MAKE_FIELD_ENTRY "MethodDescChunk" "m_size";
    MAKE_FIELD_ENTRY "MethodDescChunk" "m_count";
    MAKE_FIELD_ENTRY "MethodDescChunk" "m_flagsAndTokenRange";
    MAKE_TYPE_ENTRY "MethodImpl";
    MAKE_TYPE_ENTRY "TypeDesc";
    MAKE_FIELD_ENTRY "TypeDesc" "m_typeAndFlags";
    MAKE_TYPE_ENTRY "ParamTypeDesc";
    MAKE_BASE_TYPE_ENTRY "ParamTypeDesc" "TypeDesc" "m_typeAndFlags";
    MAKE_FIELD_ENTRY "ParamTypeDesc" "m_Arg";
    MAKE_TYPE_ENTRY "GenericsDictInfo";
    MAKE_FIELD_ENTRY "GenericsDictInfo" "m_wNumDicts";
    MAKE_FIELD_ENTRY "GenericsDictInfo" "m_wNumTyPars";
    MAKE_TYPE_ENTRY "MethodTableWriteableData";
    MAKE_FIELD_ENTRY "MethodTableWriteableData" "m_dwFlags";
    MAKE_TYPE_ENTRY "Module";
    MAKE_FIELD_ENTRY "Module" "m_pAssembly";
    MAKE_FIELD_ENTRY "Module" "m_pSimpleName";
    MAKE_FIELD_ENTRY "Module" "m_pPEAssembly";
    MAKE_FIELD_ENTRY "Module" "m_pReadyToRunInfo";
    MAKE_FIELD_ENTRY "Module" "m_TypeDefToMethodTableMap";
    MAKE_FIELD_ENTRY "Module" "m_MethodDefToDescMap";
    MAKE_TYPE_ENTRY "PEAssembly";
    MAKE_FIELD_ENTRY "PEAssembly" "m_pMDImport";
    MAKE_FIELD_ENTRY "PEAssembly" "m_PEImage";
    MAKE_TYPE_ENTRY "PEImage";
    MAKE_FIELD_ENTRY "PEImage" "m_path";
    MAKE_FIELD_ENTRY "PEImage" "m_pLayouts";
    MAKE_FIELD_ENTRY "PEImage" "m_sModuleFileNameHintUsedByDac";
    MAKE_DEFINE_ENTRY "IMAGE_FLAT" "PEImage::IMAGE_FLAT";
    MAKE_DEFINE_ENTRY "IMAGE_LOADED" "PEImage::IMAGE_LOADED";
    MAKE_DEFINE_ENTRY "IMAGE_COUNT" "PEImage::IMAGE_COUNT";
    MAKE_TYPE_ENTRY "PEDecoder";
    MAKE_FIELD_ENTRY "PEDecoder" "m_base";
    MAKE_FIELD_ENTRY "PEDecoder" "m_size";
    MAKE_FIELD_ENTRY "PEDecoder" "m_flags";
    MAKE_TYPE_ENTRY "PEImageLayout";
    MAKE_BASE_TYPE_ENTRY "PEImageLayout" "PEDecoder" "m_base";
    MAKE_TYPE_ENTRY "EEClass";
    MAKE_FIELD_ENTRY "EEClass" "m_fFieldsArePacked";
    MAKE_FIELD_ENTRY "EEClass" "m_cbFixedEEClassFields";
    MAKE_TYPE_ENTRY "ArrayClass";
    MAKE_FIELD_ENTRY "ArrayClass" "m_rank";
    MAKE_FIELD_ENTRY "ArrayClass" "m_ElementType";
    MAKE_TYPE_ENTRY "LoaderHeap";
    MAKE_TYPE_ENTRY "LoaderAllocator";
    MAKE_FIELD_ENTRY "LoaderAllocator" "m_pLowFrequencyHeap";
    MAKE_FIELD_ENTRY "LoaderAllocator" "m_pHighFrequencyHeap";
    MAKE_FIELD_ENTRY "LoaderAllocator" "m_pStubHeap";
    MAKE_TYPE_ENTRY "GlobalLoaderAllocator";
    MAKE_BASE_TYPE_ENTRY "GlobalLoaderAllocator" "LoaderAllocator" "m_pLowFrequencyHeap";
    MAKE_TYPE_ENTRY "LookupMapBase";
    MAKE_FIELD_ENTRY "LookupMapBase" "pNext";
    MAKE_FIELD_ENTRY "LookupMapBase" "pTable";
    MAKE_FIELD_ENTRY "LookupMapBase" "dwCount";
    MAKE_FIELD_ENTRY "LookupMapBase" "supportedFlags";
    MAKE_TYPE_ENTRY_WITH_ID "LookupMap<MethodDesc *>" "LookupMap_MethodDesc_Ptr";
    MAKE_BASE_TYPE_ENTRY_WITH_ID "LookupMap<MethodDesc *>" "LookupMap_MethodDesc_Ptr" "LookupMapBase" "pNext";
    MAKE_TYPE_ENTRY "Bucket";
    MAKE_FIELD_ENTRY "Bucket" "m_rgKeys";
    MAKE_FIELD_ENTRY "Bucket" "m_rgValues";
    MAKE_TYPE_ENTRY "HashMap";
    MAKE_FIELD_ENTRY "HashMap" "m_rgBuckets";
    MAKE_TYPE_ENTRY "PtrHashMap";
    MAKE_FIELD_ENTRY "PtrHashMap" "m_HashMap";
    MAKE_GLOBAL_ENTRY "AppDomain::m_pTheAppDomain";
    MAKE_TYPE_ENTRY "AppDomain";
    MAKE_FIELD_ENTRY "AppDomain" "m_Assemblies";
    MAKE_FIELD_ENTRY "AppDomain" "m_Stage.m_val";
    MAKE_FIELD_ENTRY "AppDomain" "m_friendlyName";
    MAKE_GLOBAL_ENTRY "SystemDomain::m_pSystemDomain";
    MAKE_TYPE_ENTRY "SystemDomain";
    MAKE_FIELD_ENTRY "SystemDomain" "m_pSystemAssembly";
    MAKE_FIELD_ENTRY "SystemDomain" "m_GlobalAllocator";
    MAKE_TYPE_ENTRY_WITH_ID "AppDomain::DomainAssemblyList" "AppDomain_DomainAssemblyList";
    MAKE_FIELD_ENTRY_WITH_ID "AppDomain::DomainAssemblyList" "AppDomain_DomainAssemblyList" "m_array";
    MAKE_TYPE_ENTRY "DomainAssembly";
    MAKE_FIELD_ENTRY "DomainAssembly" "m_pAssembly";
    MAKE_TYPE_ENTRY "ArrayListBase";
    MAKE_FIELD_ENTRY "ArrayListBase" "m_count";
    MAKE_FIELD_ENTRY "ArrayListBase" "m_firstBlock";
    MAKE_TYPE_ENTRY "ArrayList";
    MAKE_BASE_TYPE_ENTRY "ArrayList" "ArrayListBase" "m_count";
    MAKE_TYPE_ENTRY "Dictionary";
    MAKE_FIELD_ENTRY "Dictionary" "m_pEntries";
    MAKE_TYPE_ENTRY_WITH_ID "ArrayListBase::ArrayListBlock" "ArrayListBase_ArrayListBlock";
    MAKE_FIELD_ENTRY_WITH_ID "ArrayListBase::ArrayListBlock" "ArrayListBase_ArrayListBlock" "m_next";
    MAKE_FIELD_ENTRY_WITH_ID "ArrayListBase::ArrayListBlock" "ArrayListBase_ArrayListBlock" "m_blockSize";
    MAKE_FIELD_ENTRY_WITH_ID "ArrayListBase::ArrayListBlock" "ArrayListBase_ArrayListBlock" "m_array";
    MAKE_TYPE_ENTRY "Assembly";
    MAKE_FIELD_ENTRY "Assembly" "m_pPEAssembly";
    MAKE_FIELD_ENTRY "Assembly" "m_pModule";
    MAKE_FIELD_ENTRY "Assembly" "m_pClassLoader";
    MAKE_TYPE_ENTRY "ClassLoader";
    MAKE_TYPE_ENTRY "ReadyToRunInfo";
    MAKE_FIELD_ENTRY "ReadyToRunInfo" "m_nRuntimeFunctions";
    MAKE_FIELD_ENTRY "ReadyToRunInfo" "m_pRuntimeFunctions";
    MAKE_FIELD_ENTRY "ReadyToRunInfo" "m_pCompositeInfo";
    MAKE_FIELD_ENTRY "ReadyToRunInfo" "m_entryPointToMethodDescMap";
    MAKE_TYPE_ENTRY "RUNTIME_FUNCTION";
    MAKE_FIELD_ENTRY "RUNTIME_FUNCTION" "BeginAddress";
    MAKE_FIELD_ENTRY "RUNTIME_FUNCTION" "EndAddress";
    MAKE_FIELD_ENTRY "RUNTIME_FUNCTION" "UnwindData";
    MAKE_GLOBAL_ENTRY "g_gcDacGlobals";
    MAKE_GLOBAL_ENTRY "g_pFreeObjectMethodTable";
    MAKE_TYPE_ENTRY "GcDacVars";
    MAKE_FIELD_ENTRY "GcDacVars" "major_version_number";
    MAKE_FIELD_ENTRY "GcDacVars" "minor_version_number";
    MAKE_FIELD_ENTRY "GcDacVars" "generation_size";
    MAKE_FIELD_ENTRY "GcDacVars" "total_generation_count";
    MAKE_FIELD_ENTRY "GcDacVars" "built_with_svr";
    MAKE_FIELD_ENTRY "GcDacVars" "finalize_queue";
    MAKE_FIELD_ENTRY "GcDacVars" "generation_table";
    MAKE_FIELD_ENTRY "GcDacVars" "ephemeral_heap_segment";
    MAKE_FIELD_ENTRY "GcDacVars" "alloc_allocated";
    MAKE_FIELD_ENTRY "GcDacVars" "n_heaps";
    MAKE_FIELD_ENTRY "GcDacVars" "g_heaps";
    MAKE_TYPE_ENTRY "dac_gc_heap";
    MAKE_FIELD_ENTRY "dac_gc_heap" "alloc_allocated";
    MAKE_FIELD_ENTRY "dac_gc_heap" "ephemeral_heap_segment";
    MAKE_FIELD_ENTRY "dac_gc_heap" "finalize_queue";
    MAKE_FIELD_ENTRY "dac_gc_heap" "generation_table";
    MAKE_TYPE_ENTRY "gc_alloc_context";
    MAKE_FIELD_ENTRY "gc_alloc_context" "alloc_ptr";
    MAKE_FIELD_ENTRY "gc_alloc_context" "alloc_limit";
    MAKE_FIELD_ENTRY "gc_alloc_context" "alloc_bytes";
    MAKE_FIELD_ENTRY "gc_alloc_context" "alloc_bytes_uoh";
    MAKE_FIELD_ENTRY "gc_alloc_context" "alloc_count";
    MAKE_TYPE_ENTRY "dac_generation";
    MAKE_FIELD_ENTRY "dac_generation" "allocation_context";
    MAKE_FIELD_ENTRY "dac_generation" "start_segment";
    MAKE_FIELD_ENTRY "dac_generation" "allocation_start";
    MAKE_TYPE_ENTRY "dac_heap_segment";
    MAKE_FIELD_ENTRY "dac_heap_segment" "allocated";
    MAKE_FIELD_ENTRY "dac_heap_segment" "committed";
    MAKE_FIELD_ENTRY "dac_heap_segment" "reserved";
    MAKE_FIELD_ENTRY "dac_heap_segment" "used";
    MAKE_FIELD_ENTRY "dac_heap_segment" "mem";
    MAKE_FIELD_ENTRY "dac_heap_segment" "flags";
    MAKE_FIELD_ENTRY "dac_heap_segment" "next";
    MAKE_FIELD_ENTRY "dac_heap_segment" "background_allocated";
    MAKE_FIELD_ENTRY "dac_heap_segment" "heap";
    MAKE_TYPE_ENTRY "SBuffer";
    MAKE_FIELD_ENTRY "SBuffer" "m_size";
    MAKE_FIELD_ENTRY "SBuffer" "m_flags";
    MAKE_FIELD_ENTRY "SBuffer" "m_buffer";
    MAKE_TYPE_ENTRY "SString";
    MAKE_BASE_TYPE_ENTRY "SString" "SBuffer" "m_size";
    MAKE_TYPE_ENTRY "HeapList";
    MAKE_FIELD_ENTRY "HeapList" "hpNext";
    MAKE_FIELD_ENTRY "HeapList" "startAddress";
    MAKE_FIELD_ENTRY "HeapList" "endAddress";
    MAKE_FIELD_ENTRY "HeapList" "mapBase";
    MAKE_FIELD_ENTRY "HeapList" "pHdrMap";
    MAKE_TYPE_ENTRY "Object";
    MAKE_FIELD_ENTRY "Object" "m_pMethTab";
    MAKE_TYPE_ENTRY "ExceptionObject";
    MAKE_BASE_TYPE_ENTRY "ExceptionObject" "Object" "m_pMethTab";
    MAKE_FIELD_ENTRY "ExceptionObject" "_message";
    MAKE_FIELD_ENTRY "ExceptionObject" "_innerException";
    MAKE_FIELD_ENTRY "ExceptionObject" "_stackTrace";
    MAKE_TYPE_ENTRY "StringObject";
    MAKE_BASE_TYPE_ENTRY "StringObject" "Object" "m_pMethTab";
    MAKE_FIELD_ENTRY "StringObject" "m_StringLength";
    MAKE_TYPE_ENTRY "ArrayBase";
    MAKE_BASE_TYPE_ENTRY "ArrayBase" "Object" "m_pMethTab";
    MAKE_FIELD_ENTRY "ArrayBase" "m_NumComponents";
    MAKE_TYPE_ENTRY_WITH_ID "StackTraceArray::ArrayHeader" "StackTraceArray_ArrayHeader";
    MAKE_FIELD_ENTRY_WITH_ID "StackTraceArray::ArrayHeader" "StackTraceArray_ArrayHeader" "m_size";
    MAKE_FIELD_ENTRY_WITH_ID "StackTraceArray::ArrayHeader" "StackTraceArray_ArrayHeader" "m_thread";
    MAKE_TYPE_ENTRY "StackTraceElement";
    MAKE_FIELD_ENTRY "StackTraceElement" "ip";
    MAKE_FIELD_ENTRY "StackTraceElement" "sp";
    MAKE_FIELD_ENTRY "StackTraceElement" "pFunc";
    MAKE_FIELD_ENTRY "StackTraceElement" "flags";
    MAKE_TYPE_ENTRY "_hpRealCodeHdr";
    MAKE_FIELD_ENTRY "_hpRealCodeHdr" "phdrDebugInfo";
    MAKE_FIELD_ENTRY "_hpRealCodeHdr" "phdrJitEHInfo";
    MAKE_FIELD_ENTRY "_hpRealCodeHdr" "phdrJitGCInfo";
    MAKE_FIELD_ENTRY "_hpRealCodeHdr" "phdrMDesc";
    MAKE_FIELD_ENTRY "_hpRealCodeHdr" "unwindInfos";
    MAKE_GLOBAL_ENTRY "ExecutionManager::m_pEEJitManager";
    MAKE_TYPE_ENTRY "EEJitManager";
    MAKE_GLOBAL_ENTRY "ExecutionManager::g_codeRangeMap";
    MAKE_TYPE_ENTRY "RangeSectionMapData";
    MAKE_FIELD_ENTRY "RangeSectionMapData" "Data";
    MAKE_GLOBAL_ENTRY "ExecutionManager::m_pReadyToRunJitManager";
    MAKE_TYPE_ENTRY "ReadyToRunJitManager";
    MAKE_DEFINE_ENTRY "MinObjectSize" "MIN_OBJECT_SIZE" ].

(** Lines 478-481: the [FEATURE_EH_FUNCLETS] row is there only where the
    macro is defined, and [UNION_METHODTABLE] follows it. *)
Definition registrations_tail (cfg : Config) : list statement :=
  (if defined_FEATURE_EH_FUNCLETS cfg
   then [ MAKE_DEFINE_ENTRY "FEATURE_EH_FUNCLETS" "FEATURE_EH_FUNCLETS" ]
   else [])
  ++ [ MAKE_DEFINE_ENTRY "UNION_METHODTABLE" "MethodTable::UNION_METHODTABLE" ].

Definition registrations (cfg : Config) : list statement :=
  registrations_head ++ registrations_tail cfg.

(** Lines 483-487: the five directory entries. *)
Definition directory_entries : list statement :=
  [ MAKE_TABLE "Global" sym_s_DebugGlobals GlobalPos;
    MAKE_TABLE "Type" sym_s_DebugTypes TypePos;
    MAKE_TABLE "Field" sym_s_DebugFields FieldPos;
    MAKE_TABLE "Base" sym_s_DebugBases BasePos;
    MAKE_TABLE "Define" sym_s_DebugDefines DefinePos ].

(** Lines 483-489, the step the spec calls [FinalizeTables]: the five
    directory entries, then the table count of the header. *)
Definition FinalizeTables : list statement :=
  directory_entries ++ [ Assign_DebugTableCount ].

Definition PopulateClrDebugHeaders_body (cfg : Config) : list statement :=
  registrations cfg ++ FinalizeTables.

Definition PopulateClrDebugHeaders (cfg : Config) : outcome unit :=
  run cfg (PopulateClrDebugHeaders_body cfg) initial_state.

(** ** Vocabulary for the properties *)

(** The array a statement appends to, if any. *)
Definition appends (c : counter) (s : statement) : bool :=
  match c, s with
  | GlobalPos, MAKE_GLOBAL_ENTRY _ => true
  | TypePos, MAKE_TYPE_ENTRY_WITH_ID _ _ => true
  | BasePos, MAKE_BASE_TYPE_ENTRY_WITH_ID _ _ _ _ => true
  | FieldPos, MAKE_FIELD_ENTRY_WITH_ID _ _ _ => true
  | DefinePos, MAKE_DEFINE_ENTRY _ _ => true
  | TablePos, MAKE_TABLE _ _ _ => true
  | _, _ => false
  end.

(** The five registration macros, as opposed to the finalisation step. *)
Definition registration (s : statement) : bool :=
  match s with
  | MAKE_TABLE _ _ _ | Assign_DebugTableCount => false
  | _ => true
  end.

(** The one statement that writes to the header. *)
Definition writes_header (s : statement) : bool :=
  match s with
  | Assign_DebugTableCount => true
  | _ => false
  end.

(** How many statements of a program append to the array of [c]. *)
Fixpoint registered (c : counter) (p : list statement) : Z :=
  match p with
  | [] => 0
  | s :: p' => (if appends c s then 1 else 0) + registered c p'
  end.

Definition capacity (c : counter) : Z :=
  match c with
  | TablePos => DebugTablesArraySize
  | GlobalPos => DebugGlobalsArraySize
  | TypePos => DebugTypesArraySize
  | BasePos => DebugBasesArraySize
  | FieldPos => DebugFieldsArraySize
  | DefinePos => DebugDefinesArraySize
  end.

(** The number of elements the array of [c] holds in a state. *)
Definition array_length (c : counter) (st : State) : nat :=
  match c with
  | TablePos => length (s_DebugTables st)
  | GlobalPos => length (s_DebugGlobals st)
  | TypePos => length (s_DebugTypes st)
  | BasePos => length (s_DebugBases st)
  | FieldPos => length (s_DebugFields st)
  | DefinePos => length (s_DebugDefines st)
  end.

(** The identifiers a statement uses are in scope: a type macro declares
    a fresh one, a field or base macro reads a declared one. *)
Definition well_scoped (s : statement) (st : State) : bool :=
  match s with
  | MAKE_TYPE_ENTRY_WITH_ID _ x =>
      match lookup_var x (TypeIdVars st) with Some _ => false | None => true end
  | MAKE_BASE_TYPE_ENTRY_WITH_ID _ x _ _ | MAKE_FIELD_ENTRY_WITH_ID _ x _ =>
      match lookup_var x (TypeIdVars st) with Some _ => true | None => false end
  | _ => true
  end.

(** The state an outcome leaves behind, if the program compiled. *)
Definition state_of {A} (o : outcome A) : option State :=
  match o with
  | Returned _ st => Some st
  | AssertionFailed st => Some st
  | IllFormed => None
  end.

(** [st] is a state the builder passes through when it runs [p] from
    [st0]: the state after some number of whole statements. *)
Definition passes_through (cfg : Config) (p : list statement) (st0 st : State) : Prop :=
  exists k : nat, state_of (run cfg (take k p) st0) = Some st.

(** The arrays have their declared sizes and the counters are
    non-negative. *)
Definition well_sized (st : State) : Prop :=
  forall c, Z.of_nat (array_length c st) = capacity c /\ 0 <= current c st.

(** No counter has run past the size of its array. *)
Definition in_bounds (st : State) : Prop :=
  forall c, current c st <= capacity c.

(** The rows that count: the first [pos] elements of an array. *)
Definition rows {A} (arr : list A) (pos : Z) : list A := take (Z.to_nat pos) arr.

(** The TypeIds handed out so far, in the order of the calls. *)
Definition returned_TypeIds (st : State) : list Z := reverse (map snd (TypeIdVars st)).

(** The state a well-scoped statement leaves behind, whether or not its
    assertion holds: the store and the increment of a macro, or the
    assignment to the header.  [expand_effect] below shows that [expand]
    does exactly this. *)
Definition effect (cfg : Config) (s : statement) (st : State) : State :=
  match s with
  | MAKE_GLOBAL_ENTRY Name =>
      set_currentGlobalPos (u32 (currentGlobalPos st + 1))
        (flag_stray (past_end (s_DebugGlobals st) (currentGlobalPos st))
           (set_s_DebugGlobals
              (array_store (s_DebugGlobals st) (currentGlobalPos st)
                 (mkDebugGlobalRow (Some Name) (address_of (sym_global Name))))
              st))
  | MAKE_TYPE_ENTRY_WITH_ID TypeName TypeIdName =>
      set_currentTypePos (u32 (currentTypePos st + 1))
        (flag_stray (past_end (s_DebugTypes st) (currentTypePos st))
           (set_s_DebugTypes
              (array_store (s_DebugTypes st) (currentTypePos st)
                 (mkDebugTypeRow (Some TypeName) (u32 (sizeof cfg TypeName))))
              (set_TypeIdVars ((TypeIdName, currentTypePos st) :: TypeIdVars st) st)))
  | MAKE_BASE_TYPE_ENTRY_WITH_ID TypeName TypeIdName BaseType FieldName =>
      set_currentBasePos (u32 (currentBasePos st + 1))
        (flag_stray (past_end (s_DebugBases st) (currentBasePos st))
           (set_s_DebugBases
              (array_store (s_DebugBases st) (currentBasePos st)
                 (mkDebugMemberOffsetRow (Some BaseType)
                    (default 0 (lookup_var TypeIdName (TypeIdVars st)))
                    (u32 (baseoffset cfg TypeName BaseType FieldName))))
              st))
  | MAKE_FIELD_ENTRY_WITH_ID TypeName TypeIdName FieldName =>
      set_currentFieldPos (u32 (currentFieldPos st + 1))
        (flag_stray (past_end (s_DebugFields st) (currentFieldPos st))
           (set_s_DebugFields
              (array_store (s_DebugFields st) (currentFieldPos st)
                 (mkDebugMemberOffsetRow (Some FieldName)
                    (default 0 (lookup_var TypeIdName (TypeIdVars st)))
                    (u32 (offsetof cfg TypeName FieldName))))
              st))
  | MAKE_DEFINE_ENTRY Name Value =>
      set_currentDefinePos (u32 (currentDefinePos st + 1))
        (flag_stray (past_end (s_DebugDefines st) (currentDefinePos st))
           (set_s_DebugDefines
              (array_store (s_DebugDefines st) (currentDefinePos st)
                 (mkDebugDefineRow (Some Name) (u32 (constant cfg Value))))
              st))
  | MAKE_TABLE TableName TableAddress TableCount =>
      set_currentTablePos (u32 (currentTablePos st + 1))
        (flag_stray (past_end (s_DebugTables st) (currentTablePos st))
           (set_s_DebugTables
              (array_store (s_DebugTables st) (currentTablePos st)
                 (mkDebugTable (Some TableName) (address_of TableAddress)
                    (current TableCount st)))
              st))
  | Assign_DebugTableCount =>
      set_ClrDebugHeader
        (set_DebugTableCount (currentTablePos st) (ClrDebugHeader st)) st
  end.

(** The condition a statement asserts on the state it leaves. *)
Definition asserted (s : statement) (st : State) : bool :=
  match s with
  | MAKE_GLOBAL_ENTRY _ => currentGlobalPos st <=? DebugGlobalsArraySize
  | MAKE_TYPE_ENTRY_WITH_ID _ _ => currentTypePos st <=? DebugTypesArraySize
  | MAKE_BASE_TYPE_ENTRY_WITH_ID _ _ _ _ => currentBasePos st <=? DebugBasesArraySize
  | MAKE_FIELD_ENTRY_WITH_ID _ _ _ => currentFieldPos st <=? DebugFieldsArraySize
  | MAKE_DEFINE_ENTRY _ _ => currentDefinePos st <=? DebugDefinesArraySize
  | MAKE_TABLE _ _ _ => currentTablePos st <=? DebugTablesArraySize
  | Assign_DebugTableCount => true
  end.

Definition arrays (st : State) :=
  (s_DebugTables st, s_DebugGlobals st, s_DebugTypes st,
   s_DebugFields st, s_DebugBases st, s_DebugDefines st).

(** The directory [FinalizeTables] writes when it starts with an empty
    directory: name, backing array and the counter of each category. *)
Definition directory_of (st1 : State) : list DebugTable :=
  [ mkDebugTable (Some "Global") (address_of sym_s_DebugGlobals) (currentGlobalPos st1);
    mkDebugTable (Some "Type") (address_of sym_s_DebugTypes) (currentTypePos st1);
    mkDebugTable (Some "Field") (address_of sym_s_DebugFields) (currentFieldPos st1);
    mkDebugTable (Some "Base") (address_of sym_s_DebugBases) (currentBasePos st1);
    mkDebugTable (Some "Define") (address_of sym_s_DebugDefines) (currentDefinePos st1) ].

(** Within bounds the TypeIds handed out are 0, 1, ... up to the type
    counter. *)
Definition TypeIds_in_sequence (st : State) : Prop :=
  returned_TypeIds st = seqZ 0 (currentTypePos st).

(** The two tables of member-offset rows. *)
Definition member_rows (c : counter) (st : State) : list DebugMemberOffsetRow :=
  match c with
  | FieldPos => s_DebugFields st
  | BasePos => s_DebugBases st
  | _ => []
  end.

(** The state a program leaves when run from the initial state. *)
Definition state_after (cfg : Config) (p : list statement) : State :=
  match run cfg p initial_state with
  | Returned _ st => st
  | AssertionFailed st => st
  | IllFormed => initial_state
  end.

(** The capacity rule as the spec states it, for every build: a macro
    whose array is full halts the builder. *)
Definition halts_at_capacity (cfg : Config) : Prop :=
  forall (s : statement) (c : counter) (st : State),
    well_sized st ->
    appends c s = true ->
    current c st = capacity c ->
    well_scoped s st = true ->
    exists st', expand cfg s st = AssertionFailed st'.

(** ** Example inputs

    A small layout: a [Point] of two 4-byte members, and a [Derived] type
    whose [Base] sub-object starts at offset 8. *)
Definition example_sizeof (T : string) : Z :=
  if String.eqb T "Point" then 8
  else if String.eqb T "Base" then 8
  else if String.eqb T "Derived" then 24
  else 16.

Definition example_offsetof (T F : string) : Z :=
  if String.eqb T "Point" && String.eqb F "x" then 0
  else if String.eqb T "Point" && String.eqb F "y" then 4
  else if String.eqb T "Base" && String.eqb F "m" then 4
  else if String.eqb T "Derived" && String.eqb F "m" then 12
  else 0.

Definition example_constant (_ : string) : Z := 1.

Definition debug_build : Config :=
  mkConfig true true example_sizeof example_offsetof example_constant.

Definition release_build : Config :=
  mkConfig false true example_sizeof example_offsetof example_constant.

(** The state in which the global table is full: fifty registrations. *)
Definition fifty_globals : list statement := replicate 50 (MAKE_GLOBAL_ENTRY "g_extra").

Definition Point_registrations : list statement :=
  [ MAKE_TYPE_ENTRY "Point";
    MAKE_FIELD_ENTRY "Point" "x";
    MAKE_FIELD_ENTRY "Point" "y" ].

(** ** The registrar as the spec words it

    Section 4.1 of the spec describes the builder as five tables that grow
    by appending, with [RegisterType] returning the index of the new entry.
    This second model follows those words; the refinement lemmas below
    compare it with the arrays and counters of the source. *)
Module Spec.

Record Builder : Type := mkBuilder
  { globals : list DebugGlobalRow;
    types : list DebugTypeRow;
    fields : list DebugMemberOffsetRow;
    bases : list DebugMemberOffsetRow;
    defines : list DebugDefineRow }.

Definition empty : Builder := mkBuilder [] [] [] [] [].

Definition RegisterGlobal (name : string) (address : pointer) (b : Builder) : Builder :=
  mkBuilder (globals b ++ [mkDebugGlobalRow (Some name) address])
    (types b) (fields b) (bases b) (defines b).

Definition RegisterType (name : string) (size : Z) (b : Builder) : Z * Builder :=
  (Z.of_nat (length (types b)),
   mkBuilder (globals b) (types b ++ [mkDebugTypeRow (Some name) size])
     (fields b) (bases b) (defines b)).

Definition RegisterBase (typeId : Z) (baseName : string) (offset : Z) (b : Builder) : Builder :=
  mkBuilder (globals b) (types b) (fields b)
    (bases b ++ [mkDebugMemberOffsetRow (Some baseName) typeId offset]) (defines b).

Definition RegisterField (typeId : Z) (fieldName : string) (offset : Z) (b : Builder) : Builder :=
  mkBuilder (globals b) (types b)
    (fields b ++ [mkDebugMemberOffsetRow (Some fieldName) typeId offset])
    (bases b) (defines b).

Definition RegisterDefine (name : string) (value : Z) (b : Builder) : Builder :=
  mkBuilder (globals b) (types b) (fields b) (bases b)
    (defines b ++ [mkDebugDefineRow (Some name) value]).

Definition FinalizeTables (b : Builder) : list DebugTable :=
  [ mkDebugTable (Some "Global") (address_of sym_s_DebugGlobals) (Z.of_nat (length (globals b)));
    mkDebugTable (Some "Type") (address_of sym_s_DebugTypes) (Z.of_nat (length (types b)));
    mkDebugTable (Some "Field") (address_of sym_s_DebugFields) (Z.of_nat (length (fields b)));
    mkDebugTable (Some "Base") (address_of sym_s_DebugBases) (Z.of_nat (length (bases b)));
    mkDebugTable (Some "Define") (address_of sym_s_DebugDefines) (Z.of_nat (length (defines b))) ].

(** The registrar call a macro invocation stands for, with the TypeId
    variables bound to what [RegisterType] returned. *)
Definition call (cfg : Config) (s : statement) (vars : list (string * Z)) (b : Builder)
  : option (list (string * Z) * Builder) :=
  match s with
  | MAKE_GLOBAL_ENTRY Name =>
      Some (vars, RegisterGlobal Name (address_of (sym_global Name)) b)
  | MAKE_TYPE_ENTRY_WITH_ID TypeName TypeIdName =>
      match lookup_var TypeIdName vars with
      | Some _ => None
      | None =>
          let '(id, b') := RegisterType TypeName (u32 (sizeof cfg TypeName)) b in
          Some ((TypeIdName, id) :: vars, b')
      end
  | MAKE_BASE_TYPE_ENTRY_WITH_ID TypeName TypeIdName BaseType FieldName =>
      match lookup_var TypeIdName vars with
      | Some id =>
          Some (vars, RegisterBase id BaseType
                        (u32 (offsetof cfg TypeName FieldName - offsetof cfg BaseType FieldName)) b)
      | None => None
      end
  | MAKE_FIELD_ENTRY_WITH_ID TypeName TypeIdName FieldName =>
      match lookup_var TypeIdName vars with
      | Some id =>
          Some (vars, RegisterField id FieldName (u32 (offsetof cfg TypeName FieldName)) b)
      | None => None
      end
  | MAKE_DEFINE_ENTRY Name Value =>
      Some (vars, RegisterDefine Name (u32 (constant cfg Value)) b)
  | MAKE_TABLE _ _ _ | Assign_DebugTableCount => Some (vars, b)
  end.

Fixpoint calls (cfg : Config) (p : list statement) (vars : list (string * Z)) (b : Builder)
  : option (list (string * Z) * Builder) :=
  match p with
  | [] => Some (vars, b)
  | s :: p' =>
      match call cfg s vars b with
      | Some (vars', b') => calls cfg p' vars' b'
      | None => None
      end
  end.

End Spec.

(** A state of the source represents a builder of the spec when each
    array, cut at its position counter, is the builder's table. *)
Definition represents (st : State) (b : Spec.Builder) : Prop :=
  rows (s_DebugGlobals st) (currentGlobalPos st) = Spec.globals b /\
  rows (s_DebugTypes st) (currentTypePos st) = Spec.types b /\
  rows (s_DebugFields st) (currentFieldPos st) = Spec.fields b /\
  rows (s_DebugBases st) (currentBasePos st) = Spec.bases b /\
  rows (s_DebugDefines st) (currentDefinePos st) = Spec.defines b.

(** ** [minipal_getexepath] (getexepath.h, lines 38-115) *)
Module Minipal.

(** The preprocessor symbols the function is compiled under. *)
Record Target : Type := mkTarget
  { defined___APPLE__ : bool;
    defined___FreeBSD__ : bool;
    defined___sun : bool;
    defined___HAIKU__ : bool;
    defined__WIN32 : bool;
    defined_TARGET_WASM : bool;
    defined___linux__ : bool;
    HAVE_GETAUXVAL : bool;
    defined_AT_EXECFN : bool }.

(** What the operating system answers.  Calls that fill a caller's buffer
    give their return value and the buffer; calls that return a pointer
    give [None] for a null pointer.  [strdup] copies its argument unless
    the allocation fails. *)
Record OS : Type := mkOS
  { _NSGetExecutablePath : Z * string;
    sysctl_KERN_PROC_PATHNAME : Z * string;
    getexecname : option string;
    find_path : Z * string;
    GetModuleFileNameA : Z * string;
    getauxval_AT_EXECFN : option string;
    realpath : string -> option string;
    malloc_succeeds : bool }.

Definition strdup (os : OS) (s : string) : option string :=
  if malloc_succeeds os then Some s else None.

Definition EINVAL : Z := 22.
Definition B_OK : Z := 0.

(** The result is the returned pointer ([None] for [NULL]) and the value of
    [errno] as far as the function itself assigns it; what the calls into
    the system store in [errno] is not modelled. *)
Definition minipal_getexepath (t : Target) (os : OS) (errno : Z) : option string * Z :=
  if defined___APPLE__ t then
    let '(rc, pathBuf) := _NSGetExecutablePath os in
    if negb (rc =? 0) then (None, EINVAL)
    else (realpath os pathBuf, errno)
  else if defined___FreeBSD__ t then
    let '(rc, path) := sysctl_KERN_PROC_PATHNAME os in
    if negb (rc =? 0) then (None, errno)
    else (strdup os path, errno)
  else if defined___sun t then
    match getexecname os with
    | None => (None, errno)
    | Some path => (realpath os path, errno)
    end
  else if defined___HAIKU__ t then
    let '(status, path) := find_path os in
    if negb (status =? B_OK) then (None, status)
    else (realpath os path, errno)
  else if defined__WIN32 t then
    let '(n, path) := GetModuleFileNameA os in
    if n =? 0 then (None, errno)
    else (strdup os path, errno)
  else if defined_TARGET_WASM t then
    (strdup os "/managed", errno)
  else
    let symlinkEntrypointExecutable :=
      if defined___linux__ t then "/proc/self/exe" else "/proc/curproc/exe" in
    match realpath os symlinkEntrypointExecutable with
    | Some path => (Some path, errno)
    | None =>
        if HAVE_GETAUXVAL t && defined_AT_EXECFN t then
          match getauxval_AT_EXECFN os with
          | Some exePath => (realpath os exePath, errno)
          | None => (None, errno)
          end
        else (None, errno)
    end.

(** The platform's query for the executable path fails: the first
    operating-system call on the branch compiled in reports an error.  The
    WebAssembly branch asks the system nothing. *)
Definition query_fails (t : Target) (os : OS) : bool :=
  if defined___APPLE__ t then negb (fst (_NSGetExecutablePath os) =? 0)
  else if defined___FreeBSD__ t then negb (fst (sysctl_KERN_PROC_PATHNAME os) =? 0)
  else if defined___sun t then
    match getexecname os with None => true | Some _ => false end
  else if defined___HAIKU__ t then negb (fst (find_path os) =? B_OK)
  else if defined__WIN32 t then fst (GetModuleFileNameA os) =? 0
  else if defined_TARGET_WASM t then false
  else
    match realpath os (if defined___linux__ t then "/proc/self/exe" else "/proc/curproc/exe") with
    | None => true
    | Some _ => false
    end.

(** The branch with the [AT_EXECFN] fallback: none of the six named
    platforms, and [getauxval] with [AT_EXECFN] available. *)
Definition has_fallback (t : Target) : bool :=
  negb (defined___APPLE__ t) && negb (defined___FreeBSD__ t) &&
  negb (defined___sun t) && negb (defined___HAIKU__ t) &&
  negb (defined__WIN32 t) && negb (defined_TARGET_WASM t) &&
  HAVE_GETAUXVAL t && defined_AT_EXECFN t.

(** What the fallback yields when it is taken. *)
Definition fallback (os : OS) : option string :=
  match getauxval_AT_EXECFN os with
  | Some exePath => realpath os exePath
  | None => None
  end.

(** The failure rule as the spec states it: a failed query always comes
    back as [NULL]. *)
Definition failure_always_propagated : Prop :=
  forall (t : Target) (os : OS) (errno : Z),
    query_fails t os = true -> fst (minipal_getexepath t os errno) = None.

(** Example inputs: a Linux build with [getauxval], and a system on which
    the [/proc] link cannot be resolved although the path the process was
    started with can. *)
Definition linux_with_getauxval : Target :=
  mkTarget false false false false false false true true true.

Definition linux_without_getauxval : Target :=
  mkTarget false false false false false false true false false.

Definition proc_unreadable : OS :=
  mkOS (0, "") (0, "") None (0, "") (0, "") (Some "./dotnet")
    (fun path => if String.eqb path "./dotnet" then Some "/usr/share/dotnet/dotnet" else None)
    true.

End Minipal.

(** ** Vocabulary for the properties of whole programs *)

(** The six arrays seen through one type of row, so that a property can be
    stated once for the array of any counter. *)
Inductive row : Type :=
| TableRow (r : DebugTable)
| GlobalRow (r : DebugGlobalRow)
| TypeRow (r : DebugTypeRow)
| MemberRow (r : DebugMemberOffsetRow)
| DefineRow (r : DebugDefineRow).

Definition array_of (c : counter) (st : State) : list row :=
  match c with
  | TablePos => TableRow <$> s_DebugTables st
  | GlobalPos => GlobalRow <$> s_DebugGlobals st
  | TypePos => TypeRow <$> s_DebugTypes st
  | BasePos => MemberRow <$> s_DebugBases st
  | FieldPos => MemberRow <$> s_DebugFields st
  | DefinePos => DefineRow <$> s_DebugDefines st
  end.

(** The name pointer every kind of row starts with. *)
Definition name_of (r : row) : cstr :=
  match r with
  | TableRow r => TableName r
  | GlobalRow r => GlobalName r
  | TypeRow r => TypeName r
  | MemberRow r => MemberName r
  | DefineRow r => DefineName r
  end.

(** The zero-initialised element of each array. *)
Definition zero_row (c : counter) : row :=
  match c with
  | TablePos => TableRow zero_DebugTable
  | GlobalPos => GlobalRow zero_DebugGlobalRow
  | TypePos => TypeRow zero_DebugTypeRow
  | BasePos | FieldPos => MemberRow zero_DebugMemberOffsetRow
  | DefinePos => DefineRow zero_DebugDefineRow
  end.

(** The braced initialiser a macro assigns to its array element, evaluated
    in the state the macro starts in (lines 119, 128, 138, 148, 158, 166).
    The assignment to the header stores no row. *)
Definition written (cfg : Config) (s : statement) (st : State) : row :=
  match s with
  | MAKE_GLOBAL_ENTRY Name =>
      GlobalRow (mkDebugGlobalRow (Some Name) (address_of (sym_global Name)))
  | MAKE_TYPE_ENTRY_WITH_ID TypeName _ =>
      TypeRow (mkDebugTypeRow (Some TypeName) (u32 (sizeof cfg TypeName)))
  | MAKE_BASE_TYPE_ENTRY_WITH_ID TypeName TypeIdName BaseType FieldName =>
      MemberRow (mkDebugMemberOffsetRow (Some BaseType)
                   (default 0 (lookup_var TypeIdName (TypeIdVars st)))
                   (u32 (baseoffset cfg TypeName BaseType FieldName)))
  | MAKE_FIELD_ENTRY_WITH_ID TypeName TypeIdName FieldName =>
      MemberRow (mkDebugMemberOffsetRow (Some FieldName)
                   (default 0 (lookup_var TypeIdName (TypeIdVars st)))
                   (u32 (offsetof cfg TypeName FieldName)))
  | MAKE_DEFINE_ENTRY Name Value =>
      DefineRow (mkDebugDefineRow (Some Name) (u32 (constant cfg Value)))
  | MAKE_TABLE TableName TableAddress TableCount =>
      TableRow (mkDebugTable (Some TableName) (address_of TableAddress)
                  (current TableCount st))
  | Assign_DebugTableCount => TableRow zero_DebugTable
  end.

(** The id variable a field or base macro reads. *)
Definition reads (s : statement) : option string :=
  match s with
  | MAKE_BASE_TYPE_ENTRY_WITH_ID _ x _ _ | MAKE_FIELD_ENTRY_WITH_ID _ x _ => Some x
  | _ => None
  end.

(** Scoping as the compiler checks it, on the text of a program: with the
    id variables [declared] so far, every type macro declares a fresh name
    and every field or base macro names a declared one. *)
Definition is_declared (x : string) (declared : list string) : bool :=
  existsb (String.eqb x) declared.

Fixpoint scoped (declared : list string) (p : list statement) : bool :=
  match p with
  | [] => true
  | MAKE_TYPE_ENTRY_WITH_ID _ x :: p' =>
      negb (is_declared x declared) && scoped (x :: declared) p'
  | (MAKE_BASE_TYPE_ENTRY_WITH_ID _ x _ _ | MAKE_FIELD_ENTRY_WITH_ID _ x _) :: p' =>
      is_declared x declared && scoped declared p'
  | _ :: p' => scoped declared p'
  end.

(** The names of the id variables in scope. *)
Definition declared_names (st : State) : list string := map fst (TypeIdVars st).

(** The state a program leaves when run from a given state. *)
Definition state_from (cfg : Config) (p : list statement) (st0 : State) : State :=
  match run cfg p st0 with
  | Returned _ st => st
  | AssertionFailed st => st
  | IllFormed => st0
  end.

(** Entering [PopulateClrDebugHeaders] again: the objects with static
    storage are as the last call left them, the locals are initialised
    afresh by lines 173-178 and the id variables are out of scope. *)
Definition reenter (st : State) : State :=
  {| s_DebugTables := s_DebugTables st;
     s_DebugGlobals := s_DebugGlobals st;
     s_DebugTypes := s_DebugTypes st;
     s_DebugFields := s_DebugFields st;
     s_DebugBases := s_DebugBases st;
     s_DebugDefines := s_DebugDefines st;
     ClrDebugHeader := ClrDebugHeader st;
     currentTablePos := 0;
     currentGlobalPos := 0;
     currentTypePos := 0;
     currentBasePos := 0;
     currentFieldPos := 0;
     currentDefinePos := 0;
     TypeIdVars := [];
     stray_store := stray_store st |}.

(** Two states agree on the locals of the function. *)
Definition same_locals (st st' : State) : Prop :=
  (forall c, current c st' = current c st) /\ TypeIdVars st' = TypeIdVars st.

(** What an outside reader can see: the six arrays and the header. *)
Definition published (st : State) :=
  (arrays st, ClrDebugHeader st).

(** * Properties of the builder *)

Section BuilderFacts.
Context (cfg : Config).

(** ** What a statement does *)

Lemma expand_effect s st :
  expand cfg s st =
  if well_scoped s st
  then if assertions_enabled cfg && negb (asserted s (effect cfg s st))
       then AssertionFailed (effect cfg s st)
       else Returned tt (effect cfg s st)
  else IllFormed.
Proof.
  destruct s;
    cbv beta iota delta
      [expand bind get modify ret ASSERT read_var declare_var well_scoped
       store_s_DebugTables store_s_DebugGlobals store_s_DebugTypes
       store_s_DebugFields store_s_DebugBases store_s_DebugDefines];
    try destruct (lookup_var _ _) eqn:E; simpl; rewrite ?E, ?andb_false_r; reflexivity.
Qed.


Lemma expand_Returned s st st' :
  expand cfg s st = Returned tt st' ->
  well_scoped s st = true /\ st' = effect cfg s st.
Proof.
  rewrite expand_effect. destruct (well_scoped s st); [|discriminate].
  destruct (_ && _); [discriminate|]. intros [= <-]. done.
Qed.

(** ** Running a program *)

Lemma run_app p q st :
  run cfg (p ++ q) st =
  match run cfg p st with
  | Returned _ st' => run cfg q st'
  | AssertionFailed st' => AssertionFailed st'
  | IllFormed => IllFormed
  end.
Proof.
  revert st. induction p as [|s p IH]; intros st; [reflexivity|].
  simpl. unfold bind. destruct (expand cfg s st); auto.
Qed.

Lemma run_cons_Returned s p st st' :
  run cfg (s :: p) st = Returned tt st' ->
  well_scoped s st = true /\ run cfg p (effect cfg s st) = Returned tt st'.
Proof.
  simpl. unfold bind. destruct (expand cfg s st) as [[] st1| |] eqn:E; try discriminate.
  apply expand_Returned in E as [? ->]. auto.
Qed.

Lemma run_cons_state s p st st' :
  state_of (run cfg (s :: p) st) = Some st' ->
  well_scoped s st = true /\
  (st' = effect cfg s st \/ state_of (run cfg p (effect cfg s st)) = Some st').
Proof.
  simpl. unfold bind. rewrite expand_effect.
  destruct (well_scoped s st); [|discriminate].
  destruct (_ && _); simpl; [intros [= <-]|]; auto.
Qed.

(** A property kept by every statement of a class holds in every state a
    program of that class passes through. *)
Lemma run_invariant (Q : statement -> Prop) (P : State -> Prop) :
  (forall s st, Q s -> well_scoped s st = true -> P st -> P (effect cfg s st)) ->
  forall p st st',
    Forall Q p -> P st -> state_of (run cfg p st) = Some st' -> P st'.
Proof.
  intros Hstep p. induction p as [|s p IH]; intros st st' HQ HP Hrun.
  - simpl in Hrun. congruence.
  - apply Forall_cons in HQ as [Hs HQ].
    apply run_cons_state in Hrun as [Hsc [->|Hrun]]; eauto.
Qed.

Lemma passes_through_invariant (Q : statement -> Prop) (P : State -> Prop) :
  (forall s st, Q s -> well_scoped s st = true -> P st -> P (effect cfg s st)) ->
  forall p st st',
    Forall Q p -> P st -> passes_through cfg p st st' -> P st'.
Proof.
  intros Hstep p st st' HQ HP [k Hk].
  apply (run_invariant Q P Hstep (take k p) st st'); auto using Forall_take.
Qed.

Lemma passes_through_run p st st' :
  state_of (run cfg p st) = Some st' -> passes_through cfg p st st'.
Proof. intros H. exists (length p). by rewrite firstn_all. Qed.

(** ** Sizes, counters and the stray-store flag *)

Lemma u32_nonneg z : 0 <= u32 z.
Proof. unfold u32. apply Z.mod_pos_bound. lia. Qed.

Lemma u32_small z : 0 <= z < 2 ^ 32 -> u32 z = z.
Proof. unfold u32. apply Z.mod_small. Qed.

Lemma well_sized_initial : well_sized initial_state.
Proof. intros []; vm_compute; split; congruence. Qed.

Lemma in_bounds_initial : in_bounds initial_state.
Proof. intros []; vm_compute; congruence. Qed.

Lemma effect_well_sized s st : well_sized st -> well_sized (effect cfg s st).
Proof.
  intros H c. specialize (H c).
  destruct s, c; simpl in *; unfold array_store;
    rewrite ?length_insert; split; try apply u32_nonneg; tauto.
Qed.

Lemma effect_stray s st :
  stray_store (effect cfg s st) = false -> stray_store st = false.
Proof. destruct s; simpl; try apply orb_false_elim; tauto. Qed.

(** A store that left the flag down was in range, so the increment did
    not wrap. *)
Lemma effect_current s st c :
  well_sized st ->
  stray_store (effect cfg s st) = false ->
  current c (effect cfg s st) = current c st + (if appends c s then 1 else 0) /\
  current c (effect cfg s st) <= Z.max (current c st) (capacity c).
Proof.
  intros Hw Hs.
  assert (forall d, appends d s = true ->
            u32 (current d st + 1) = current d st + 1 /\
            current d st + 1 <= capacity d) as Hin.
  { intros d Hd. destruct (Hw d) as [Hlen Hpos].
    assert (current d st < capacity d) as Hlt.
    { destruct s, d; try discriminate; simpl in *;
        apply orb_false_elim in Hs as [_ Hs]; unfold past_end in Hs; lia. }
    split; [|lia]. apply u32_small.
    destruct d; simpl in *; unfold DebugTablesArraySize, DebugGlobalsArraySize,
      DebugTypesArraySize, DebugBasesArraySize, DebugFieldsArraySize,
      DebugDefinesArraySize in *; lia. }
  destruct (appends c s) eqn:Hc.
  - destruct (Hin c Hc) as [Hu Hle].
    destruct s, c; try discriminate; simpl in *; lia.
  - destruct s, c; try discriminate; simpl in *; lia.
Qed.

Lemma run_well_sized p st st' :
  well_sized st -> state_of (run cfg p st) = Some st' -> well_sized st'.
Proof.
  intros Hw Hrun.
  apply (run_invariant (fun _ => True) well_sized) with (p := p) (st := st); auto.
  - intros. by apply effect_well_sized.
  - by apply Forall_true.
Qed.

Lemma run_stray p st st' :
  state_of (run cfg p st) = Some st' ->
  stray_store st' = false -> stray_store st = false.
Proof.
  revert st. induction p as [|s p IH]; intros st Hrun Hs.
  - simpl in Hrun. congruence.
  - apply run_cons_state in Hrun as [_ [->|Hrun]]; eauto using effect_stray.
Qed.

(** Within bounds every counter has advanced by the number of statements
    that append to its array. *)
Lemma run_current p st st' c :
  well_sized st ->
  run cfg p st = Returned tt st' ->
  stray_store st' = false ->
  current c st' = current c st + registered c p.
Proof.
  revert st. induction p as [|s p IH]; intros st Hw Hrun Hs.
  - simpl in *. injection Hrun as <-. lia.
  - apply run_cons_Returned in Hrun as [_ Hrun].
    assert (stray_store (effect cfg s st) = false) as Hs1.
    { eapply run_stray; [|done]. by rewrite Hrun. }
    rewrite (IH _ (effect_well_sized s st Hw) Hrun Hs).
    destruct (effect_current s st c Hw Hs1) as [-> _]. simpl. lia.
Qed.

Lemma run_in_bounds p st st' :
  well_sized st -> in_bounds st ->
  state_of (run cfg p st) = Some st' ->
  stray_store st' = false ->
  in_bounds st'.
Proof.
  revert st. induction p as [|s p IH]; intros st Hw Hb Hrun Hs.
  - simpl in Hrun. congruence.
  - assert (stray_store (effect cfg s st) = false -> in_bounds (effect cfg s st)) as Hstep.
    { intros Hs1 c. destruct (effect_current s st c Hw Hs1) as [_ H].
      specialize (Hb c). lia. }
    apply run_cons_state in Hrun as [_ [->|Hrun]]; [auto|].
    apply (IH (effect cfg s st)); auto using effect_well_sized.
    apply Hstep. eapply run_stray; eauto.
Qed.

(** ** The header *)

Lemma effect_header s st :
  writes_header s = false ->
  ClrDebugHeader (effect cfg s st) = ClrDebugHeader st.
Proof. destruct s; simpl; congruence. Qed.

Lemma effect_header_identity s st :
  set_DebugTableCount 0 (ClrDebugHeader (effect cfg s st)) =
  set_DebugTableCount 0 (ClrDebugHeader st).
Proof. destruct s; reflexivity. Qed.


(** A program without the assignment leaves the header as it found it. *)
Lemma run_header p st st' :
  Forall (fun s => writes_header s = false) p ->
  state_of (run cfg p st) = Some st' ->
  ClrDebugHeader st' = ClrDebugHeader st.
Proof.
  intros Hp Hrun.
  apply (run_invariant (fun s => writes_header s = false)
           (fun x => ClrDebugHeader x = ClrDebugHeader st)) with (p := p) (st := st);
    auto.
  intros s x Hs _ <-. by apply effect_header.
Qed.

Lemma registrations_no_header_write :
  Forall (fun s => writes_header s = false) (registrations cfg ++ directory_entries).
Proof.
  apply Forall_forall. intros s Hs.
  assert (forallb (fun s => negb (writes_header s))
            (registrations cfg ++ directory_entries) = true) as H.
  { unfold registrations, registrations_tail.
    destruct (defined_FEATURE_EH_FUNCLETS cfg); vm_compute; reflexivity. }
  rewrite forallb_forall in H. apply list_elem_of_In, H in Hs.
  by destruct (writes_header s).
Qed.

(** The whole pass, summarised by evaluation: it returns, no store went
    astray, and the counters and the header end as listed. *)
Lemma populate_summary :
  exists st,
    PopulateClrDebugHeaders cfg = Returned tt st /\
    stray_store st = false /\
    currentTablePos st = 5 /\
    currentGlobalPos st = 8 /\
    currentTypePos st = 61 /\
    currentFieldPos st = 147 /\
    currentBasePos st = 15 /\
    currentDefinePos st = (if defined_FEATURE_EH_FUNCLETS cfg then 6 else 5) /\
    DebugTableCount (ClrDebugHeader st) = 5.
Proof.
  assert (match PopulateClrDebugHeaders cfg with
          | Returned _ st =>
              stray_store st = false /\
              currentTablePos st = 5 /\
              currentGlobalPos st = 8 /\
              currentTypePos st = 61 /\
              currentFieldPos st = 147 /\
              currentBasePos st = 15 /\
              currentDefinePos st = (if defined_FEATURE_EH_FUNCLETS cfg then 6 else 5) /\
              DebugTableCount (ClrDebugHeader st) = 5
          | _ => False
          end) as H.
  { destruct cfg as [[] [] sz off k]; vm_compute; repeat split. }
  destruct (PopulateClrDebugHeaders cfg) as [[] st| |]; [|done..].
  exists st. split; [reflexivity|exact H].
Qed.

Lemma body_split :
  PopulateClrDebugHeaders_body cfg =
  (registrations cfg ++ directory_entries) ++ [Assign_DebugTableCount].
Proof.
  unfold PopulateClrDebugHeaders_body, FinalizeTables. by rewrite app_assoc.
Qed.

(** The pass taken apart at its last statement. *)
Lemma populate_last_step :
  exists before final,
    run cfg (registrations cfg ++ directory_entries) initial_state = Returned tt before /\
    expand cfg Assign_DebugTableCount before = Returned tt final /\
    PopulateClrDebugHeaders cfg = Returned tt final.
Proof.
  destruct populate_summary as (final & Hrun & _).
  pose proof Hrun as Hrun'.
  unfold PopulateClrDebugHeaders in Hrun'. rewrite body_split, run_app in Hrun'.
  destruct (run cfg (registrations cfg ++ directory_entries) initial_state)
    as [[] before| |]; try discriminate.
  exists before, final. split; [reflexivity|]. split; [|exact Hrun].
  apply run_cons_Returned in Hrun' as [_ Hnil].
  injection Hnil as <-. reflexivity.
Qed.

(** Whatever runs, the header keeps everything but its table count. *)
Lemma header_invariant p st :
  passes_through cfg p initial_state st ->
  set_DebugTableCount 0 (ClrDebugHeader st) = ClrDebugHeader_init.
Proof.
  intros Hst.
  apply (passes_through_invariant (fun _ => True)
           (fun x => set_DebugTableCount 0 (ClrDebugHeader x) = ClrDebugHeader_init))
    with (p := p) (st := initial_state); auto.
  - intros s x _ _ <-. apply effect_header_identity.
  - by apply Forall_true.
Qed.

(** C7 (header identity): in every state any sequence of builder
    statements passes through, the cookie is the four bytes 0x20 0x43 0x44
    0x48 (ASCII " CDH"), the versions are 2 and 0, and the header differs
    from its initial value in the table count at most. *)
Theorem header_identity_fixed (p : list statement) (st : State) :
  passes_through cfg p initial_state st ->
  Cookie (ClrDebugHeader st) = [Byte.x20; Byte.x43; Byte.x44; Byte.x48] /\
  Cookie (ClrDebugHeader st) = String.list_byte_of_string " CDH" /\
  MajorVersion (ClrDebugHeader st) = 2 /\
  MinorVersion (ClrDebugHeader st) = 0 /\
  ClrDebugHeader st =
    set_DebugTableCount (DebugTableCount (ClrDebugHeader st)) ClrDebugHeader_init.
Proof.
  intros Hst. pose proof (header_invariant p st Hst) as H.
  destruct (ClrDebugHeader st) as [c ma mi dt n].
  injection H as -> -> -> ->. repeat split.
Qed.

(** C10 (the fixed sequence fits): for every build configuration the pass
    returns, also where assertions are compiled in; no store went past the
    end of an array; and it leaves 8 globals, 61 types, 147 fields, 15
    bases and 5 or 6 defines, each strictly below the size of its array,
    and exactly 5 directory entries, which is the size of the directory. *)
Theorem populate_within_capacity :
  exists st,
    PopulateClrDebugHeaders cfg = Returned tt st /\
    stray_store st = false /\
    (currentGlobalPos st = 8 /\ currentGlobalPos st < DebugGlobalsArraySize) /\
    (currentTypePos st = 61 /\ currentTypePos st < DebugTypesArraySize) /\
    (currentFieldPos st = 147 /\ currentFieldPos st < DebugFieldsArraySize) /\
    (currentBasePos st = 15 /\ currentBasePos st < DebugBasesArraySize) /\
    (currentDefinePos st = (if defined_FEATURE_EH_FUNCLETS cfg then 6 else 5) /\
     currentDefinePos st < DebugDefinesArraySize) /\
    (currentTablePos st = 5 /\ currentTablePos st = DebugTablesArraySize).
Proof.
  destruct populate_summary as (st & Hrun & Hs & Ht & Hg & Hty & Hf & Hb & Hd & _).
  exists st. rewrite Ht, Hg, Hty, Hf, Hb, Hd.
  repeat split; try done. by destruct (defined_FEATURE_EH_FUNCLETS cfg).
Qed.

(** ** Rows and the registrar of the spec *)

Lemma rows_append {A} (arr : list A) (pos : Z) (x : A) :
  0 <= pos -> Z.of_nat (length arr) < 2 ^ 32 ->
  past_end arr pos = false ->
  u32 (pos + 1) = pos + 1 /\
  array_store arr pos x !! Z.to_nat pos = Some x /\
  rows (array_store arr pos x) (u32 (pos + 1)) = rows arr pos ++ [x].
Proof.
  intros Hpos Hlen Hin. unfold past_end in Hin.
  assert (Z.to_nat pos < length arr)%nat as Hlt by lia.
  assert (u32 (pos + 1) = pos + 1) as -> by (apply u32_small; lia).
  unfold rows, array_store. split; [done|].
  split; [by apply list_lookup_insert_eq|].
  replace (Z.to_nat (pos + 1)) with (S (Z.to_nat pos)) by lia.
  rewrite (take_S_r _ _ x) by (by apply list_lookup_insert_eq).
  by rewrite take_insert_ge.
Qed.

Lemma capacity_small c : capacity c < 2 ^ 32.
Proof. by destruct c. Qed.

(** What an in-range store and increment do to the array of [c]. *)
Lemma well_sized_append st c :
  well_sized st ->
  0 <= current c st /\ Z.of_nat (array_length c st) < 2 ^ 32.
Proof.
  intros Hw. destruct (Hw c) as [-> ?]. split; [done|apply capacity_small].
Qed.

Lemma represents_initial : represents initial_state Spec.empty.
Proof. repeat split. Qed.

Lemma effect_represents s st b :
  well_sized st ->
  well_scoped s st = true ->
  stray_store (effect cfg s st) = false ->
  represents st b ->
  exists b',
    Spec.call cfg s (TypeIdVars st) b = Some (TypeIdVars (effect cfg s st), b') /\
    represents (effect cfg s st) b'.
Proof.
  intros Hw Hsc Hs (Hg & Ht & Hf & Hb & Hd).
  destruct s; simpl in Hsc, Hs |- *;
    try (apply orb_false_elim in Hs as [_ Hs]).
  - destruct (well_sized_append st GlobalPos Hw) as [H0 Hlen]; simpl in H0, Hlen.
    destruct (rows_append _ _ (mkDebugGlobalRow (Some Name) (address_of (sym_global Name)))
                H0 Hlen Hs) as (_ & _ & Hrows).
    eexists. split; [reflexivity|].
    unfold represents; simpl. rewrite Hrows, Hg. done.
  - destruct (well_sized_append st TypePos Hw) as [H0 Hlen]; simpl in H0, Hlen.
    destruct (rows_append _ _ (mkDebugTypeRow (Some TypeName0) (u32 (sizeof cfg TypeName0)))
                H0 Hlen Hs) as (_ & _ & Hrows).
    destruct (lookup_var TypeIdName (TypeIdVars st)); [discriminate|].
    eexists. split.
    + simpl. do 3 f_equal. rewrite <- Ht. unfold rows, past_end in *.
      apply Z.leb_gt in Hs. rewrite length_take_le; [|lia]. f_equal. lia.
    + unfold represents; simpl. rewrite Hrows, Ht. done.
  - destruct (well_sized_append st BasePos Hw) as [H0 Hlen]; simpl in H0, Hlen.
    destruct (lookup_var TypeIdName (TypeIdVars st)) as [id|]; [|discriminate].
    destruct (rows_append _ _
                (mkDebugMemberOffsetRow (Some BaseType) id
                   (u32 (baseoffset cfg TypeName0 BaseType FieldName)))
                H0 Hlen Hs) as (_ & _ & Hrows).
    eexists. split; [reflexivity|].
    unfold represents; simpl. rewrite Hrows, Hb. done.
  - destruct (well_sized_append st FieldPos Hw) as [H0 Hlen]; simpl in H0, Hlen.
    destruct (lookup_var TypeIdName (TypeIdVars st)) as [id|]; [|discriminate].
    destruct (rows_append _ _
                (mkDebugMemberOffsetRow (Some FieldName) id
                   (u32 (offsetof cfg TypeName0 FieldName)))
                H0 Hlen Hs) as (_ & _ & Hrows).
    eexists. split; [reflexivity|].
    unfold represents; simpl. rewrite Hrows, Hf. done.
  - destruct (well_sized_append st DefinePos Hw) as [H0 Hlen]; simpl in H0, Hlen.
    destruct (rows_append _ _ (mkDebugDefineRow (Some Name) (u32 (constant cfg Value)))
                H0 Hlen Hs) as (_ & _ & Hrows).
    eexists. split; [reflexivity|].
    unfold represents; simpl. rewrite Hrows, Hd. done.
  - eexists. split; [reflexivity|]. by repeat split.
  - eexists. split; [reflexivity|]. by repeat split.
Qed.

Lemma run_represents p st st' b :
  well_sized st ->
  represents st b ->
  run cfg p st = Returned tt st' ->
  stray_store st' = false ->
  exists b',
    Spec.calls cfg p (TypeIdVars st) b = Some (TypeIdVars st', b') /\
    represents st' b'.
Proof.
  revert st b. induction p as [|s p IH]; intros st b Hw Hrep Hrun Hs.
  - injection Hrun as <-. eauto.
  - apply run_cons_Returned in Hrun as [Hsc Hrun].
    assert (stray_store (effect cfg s st) = false) as Hs1.
    { eapply run_stray; [|done]. by rewrite Hrun. }
    destruct (effect_represents s st b Hw Hsc Hs1 Hrep) as (b1 & Hcall & Hrep1).
    destruct (IH _ b1 (effect_well_sized s st Hw) Hrep1 Hrun Hs) as (b' & Hcalls & Hrep').
    exists b'. split; [|done]. simpl. by rewrite Hcall.
Qed.

(** ** Finalisation *)

Lemma run_FinalizeTables st1 :
  well_sized st1 ->
  currentTablePos st1 = 0 ->
  stray_store st1 = false ->
  run cfg FinalizeTables st1 =
  Returned tt
    (set_ClrDebugHeader (set_DebugTableCount 5 (ClrDebugHeader st1))
       (set_currentTablePos 5 (set_s_DebugTables (directory_of st1) st1))).
Proof.
  intros Hw Hpos Hs. pose proof (Hw TablePos) as [Hlen _].
  destruct st1 as [tables globals types fields bases defines hdr
                   tp gp typ bp fp dp vars stray].
  simpl in *. subst tp stray.
  unfold DebugTablesArraySize in Hlen.
  destruct tables as [|t0 [|t1 [|t2 [|t3 [|t4 [|t5 tables]]]]]];
    simpl length in Hlen; try lia.
  destruct cfg as [[] feh sz off k]; reflexivity.
Qed.

Lemma registered_tables_none regs :
  forallb registration regs = true -> registered TablePos regs = 0.
Proof.
  induction regs as [|s regs IH]; [done|]. simpl.
  intros [Hs Hregs]%andb_prop. rewrite IH by done. by destruct s.
Qed.

(** The registrations, then the finalisation: where it all ends. *)
Lemma registrations_then_finalize regs st1 :
  forallb registration regs = true ->
  run cfg regs initial_state = Returned tt st1 ->
  stray_store st1 = false ->
  well_sized st1 /\
  (forall c, current c st1 = registered c regs) /\
  run cfg FinalizeTables st1 =
  Returned tt
    (set_ClrDebugHeader (set_DebugTableCount 5 (ClrDebugHeader st1))
       (set_currentTablePos 5 (set_s_DebugTables (directory_of st1) st1))).
Proof.
  intros Hregs Hrun Hs.
  assert (well_sized st1) as Hw.
  { apply (run_well_sized regs initial_state); [apply well_sized_initial|by rewrite Hrun]. }
  assert (forall c, current c st1 = registered c regs) as Hcur.
  { intros c. rewrite (run_current regs initial_state st1 c well_sized_initial Hrun Hs).
    by destruct c. }
  split; [done|]. split; [done|].
  apply run_FinalizeTables; try done.
  rewrite <- (registered_tables_none regs Hregs). apply (Hcur TablePos).
Qed.

(** C3 (the directory): when a sequence of registrations has run within
    bounds, [FinalizeTables] returns and leaves a directory of exactly five
    entries, "Global", "Type", "Field", "Base", "Define" in this order,
    each with the address of the array of its category and, as row count,
    the number of registrations of that category; the header points at the
    directory and counts five tables; the row arrays are as the
    registrations left them. *)
Theorem directory_after_FinalizeTables (regs : list statement) (st1 : State) :
  forallb registration regs = true ->
  run cfg regs initial_state = Returned tt st1 ->
  stray_store st1 = false ->
  exists st,
    run cfg FinalizeTables st1 = Returned tt st /\
    s_DebugTables st =
      [ mkDebugTable (Some "Global") (address_of sym_s_DebugGlobals) (registered GlobalPos regs);
        mkDebugTable (Some "Type") (address_of sym_s_DebugTypes) (registered TypePos regs);
        mkDebugTable (Some "Field") (address_of sym_s_DebugFields) (registered FieldPos regs);
        mkDebugTable (Some "Base") (address_of sym_s_DebugBases) (registered BasePos regs);
        mkDebugTable (Some "Define") (address_of sym_s_DebugDefines) (registered DefinePos regs) ] /\
    length (s_DebugTables st) = 5%nat /\
    DebugTables (ClrDebugHeader st) = address_of sym_s_DebugTables /\
    DebugTableCount (ClrDebugHeader st) = 5 /\
    (s_DebugGlobals st, s_DebugTypes st, s_DebugFields st, s_DebugBases st, s_DebugDefines st) =
    (s_DebugGlobals st1, s_DebugTypes st1, s_DebugFields st1, s_DebugBases st1, s_DebugDefines st1) /\
    stray_store st = false.
Proof.
  intros Hregs Hrun Hs.
  destruct (registrations_then_finalize regs st1 Hregs Hrun Hs) as (Hw & Hcur & Hfin).
  eexists. split; [exact Hfin|]. simpl. unfold directory_of.
  rewrite <- (Hcur GlobalPos), <- (Hcur TypePos), <- (Hcur FieldPos),
    <- (Hcur BasePos), <- (Hcur DefinePos). simpl.
  assert (passes_through cfg regs initial_state st1) as Hpass.
  { apply passes_through_run. by rewrite Hrun. }
  pose proof (header_invariant regs st1 Hpass) as Hh.
  destruct (ClrDebugHeader st1) as [c ma mi dt n].
  injection Hh as -> -> -> ->. by repeat split.
Qed.

(** C6 (counts and order): when a sequence of registrations has run
    within bounds, the registrar of the spec, given the same calls, ends
    with the tables the arrays hold below their counters, row for row in
    the order of the calls, with the same TypeId variables; and the
    directory [FinalizeTables] then writes is the one of the spec, its row
    counts being the numbers of registrations per category. *)
Theorem tables_as_registered (regs : list statement) (st1 : State) :
  forallb registration regs = true ->
  run cfg regs initial_state = Returned tt st1 ->
  stray_store st1 = false ->
  exists b st,
    Spec.calls cfg regs [] Spec.empty = Some (TypeIdVars st1, b) /\
    represents st1 b /\
    run cfg FinalizeTables st1 = Returned tt st /\
    represents st b /\
    s_DebugTables st = Spec.FinalizeTables b /\
    map RowCount (s_DebugTables st) =
      [ registered GlobalPos regs; registered TypePos regs; registered FieldPos regs;
        registered BasePos regs; registered DefinePos regs ].
Proof.
  intros Hregs Hrun Hs.
  destruct (registrations_then_finalize regs st1 Hregs Hrun Hs) as (Hw & Hcur & Hfin).
  destruct (run_represents regs initial_state st1 Spec.empty
              well_sized_initial represents_initial Hrun Hs) as (b & Hcalls & Hrep).
  assert (in_bounds st1) as Hb.
  { apply (run_in_bounds regs initial_state);
      auto using well_sized_initial, in_bounds_initial. by rewrite Hrun. }
  exists b. eexists. split; [exact Hcalls|]. split; [exact Hrep|].
  split; [exact Hfin|]. split; [exact Hrep|]. simpl.
  assert (forall c,
            Z.of_nat (Z.to_nat (current c st1) `min` array_length c st1) = current c st1)
    as Hlen.
  { intros c. destruct (Hw c) as [Hl H0]. specialize (Hb c). lia. }
  destruct Hrep as (Hg & Ht & Hf & Hba & Hd).
  split.
  - unfold Spec.FinalizeTables, directory_of.
    rewrite <- Hg, <- Ht, <- Hf, <- Hba, <- Hd. unfold rows.
    rewrite !length_take.
    pose proof (Hlen GlobalPos) as Hl1. pose proof (Hlen TypePos) as Hl2.
    pose proof (Hlen FieldPos) as Hl3. pose proof (Hlen BasePos) as Hl4.
    pose proof (Hlen DefinePos) as Hl5.
    cbn [current array_length] in Hl1, Hl2, Hl3, Hl4, Hl5.
    by rewrite Hl1, Hl2, Hl3, Hl4, Hl5.
  - simpl. by rewrite <- (Hcur GlobalPos), <- (Hcur TypePos), <- (Hcur FieldPos),
      <- (Hcur BasePos), <- (Hcur DefinePos).
Qed.

(** ** The tables at the moment the count is written *)

Lemma registrations_are_registrations :
  forallb registration (registrations cfg) = true.
Proof.
  unfold registrations, registrations_tail.
  destruct (defined_FEATURE_EH_FUNCLETS cfg); vm_compute; reflexivity.
Qed.

(** Within bounds the tables of a represented builder are as long as the
    counters say. *)
Lemma represents_lengths st b :
  well_sized st -> in_bounds st -> represents st b ->
  Z.of_nat (length (Spec.globals b)) = currentGlobalPos st /\
  Z.of_nat (length (Spec.types b)) = currentTypePos st /\
  Z.of_nat (length (Spec.fields b)) = currentFieldPos st /\
  Z.of_nat (length (Spec.bases b)) = currentBasePos st /\
  Z.of_nat (length (Spec.defines b)) = currentDefinePos st.
Proof.
  intros Hw Hb (Hg & Ht & Hf & Hba & Hd).
  assert (forall c,
            Z.of_nat (Z.to_nat (current c st) `min` array_length c st) = current c st)
    as Hlen.
  { intros c. destruct (Hw c) as [Hl H0]. specialize (Hb c). lia. }
  rewrite <- Hg, <- Ht, <- Hf, <- Hba, <- Hd. unfold rows. rewrite !length_take.
  pose proof (Hlen GlobalPos) as Hl1. pose proof (Hlen TypePos) as Hl2.
  pose proof (Hlen FieldPos) as Hl3. pose proof (Hlen BasePos) as Hl4.
  pose proof (Hlen DefinePos) as Hl5.
  cbn [current array_length] in Hl1, Hl2, Hl3, Hl4, Hl5. auto.
Qed.

(** What the arrays hold when the pass reaches its last statement, and
    after it: the rows of the registrations, each array row for row as the
    registrar of the spec has them, and the directory over them. *)
Lemma populate_tables before final :
  run cfg (registrations cfg ++ directory_entries) initial_state = Returned tt before ->
  expand cfg Assign_DebugTableCount before = Returned tt final ->
  exists b,
    Spec.calls cfg (registrations cfg) [] Spec.empty = Some (TypeIdVars final, b) /\
    (represents before b /\ s_DebugTables before = Spec.FinalizeTables b) /\
    (represents final b /\ s_DebugTables final = Spec.FinalizeTables b) /\
    map RowCount (s_DebugTables before) =
      [8; 61; 147; 15; if defined_FEATURE_EH_FUNCLETS cfg then 6 else 5] /\
    stray_store final = false.
Proof.
  intros Hq Hlast.
  destruct populate_summary
    as (final' & Hrun & Hstray & _ & Hn1 & Hn2 & Hn3 & Hn4 & Hn5 & _).
  assert (final' = final) as ->.
  { unfold PopulateClrDebugHeaders in Hrun.
    rewrite body_split, run_app, Hq in Hrun. cbn [run] in Hrun. unfold bind in Hrun.
    rewrite Hlast in Hrun. unfold ret in Hrun. congruence. }
  pose proof Hrun as Hrun'.
  unfold PopulateClrDebugHeaders, PopulateClrDebugHeaders_body in Hrun'.
  rewrite run_app in Hrun'.
  destruct (run cfg (registrations cfg) initial_state) as [[] st1| |] eqn:Hregs;
    try discriminate.
  assert (stray_store st1 = false) as Hs1.
  { apply (run_stray FinalizeTables st1 final); [by rewrite Hrun'|done]. }
  destruct (registrations_then_finalize (registrations cfg) st1
              registrations_are_registrations Hregs Hs1) as (Hw & Hcur & Hfin).
  destruct (run_represents (registrations cfg) initial_state st1 Spec.empty
              well_sized_initial represents_initial Hregs Hs1) as (b & Hcalls & Hrep).
  assert (in_bounds st1) as Hb.
  { apply (run_in_bounds (registrations cfg) initial_state);
      auto using well_sized_initial, in_bounds_initial. by rewrite Hregs. }
  destruct (represents_lengths st1 b Hw Hb Hrep) as (Hl1 & Hl2 & Hl3 & Hl4 & Hl5).
  assert (directory_of st1 = Spec.FinalizeTables b) as Hdir.
  { unfold directory_of, Spec.FinalizeTables. by rewrite Hl1, Hl2, Hl3, Hl4, Hl5. }
  rewrite Hfin in Hrun'. injection Hrun' as Hfinal.
  pose proof (expand_Returned _ _ _ Hlast) as [_ Hstep].
  assert (represents final b /\ s_DebugTables final = Spec.FinalizeTables b /\
          TypeIdVars final = TypeIdVars st1 /\
          map RowCount (s_DebugTables final) =
            [currentGlobalPos final; currentTypePos final; currentFieldPos final;
             currentBasePos final; currentDefinePos final]) as (Hrepf & Hdirf & Hvars & Hrc).
  { rewrite <- Hfinal. simpl. rewrite <- Hdir. split; [exact Hrep|]. by repeat split. }
  rewrite Hn1, Hn2, Hn3, Hn4, Hn5 in Hrc.
  exists b. rewrite Hvars. split; [exact Hcalls|].
  split; [|split; [by split|]].
  - rewrite Hstep in Hrepf, Hdirf. split; [exact Hrepf|exact Hdirf].
  - split; [|exact Hstray]. rewrite Hstep in Hrc. exact Hrc.
Qed.

(** C1 (publish-last): whatever state the pass is observed in, the table
    count of the header is 0 as long as the last statement has not run and
    5 once it has.  That last statement is the assignment to the count.  It
    is reached with the header still as initialised and with everything
    already written: the five row arrays hold, below their counters, the
    rows of the registrations, row for row the tables the registrar of the
    spec builds from the same calls, and the directory is the one over
    these tables, with 8, 61, 147, 15 and 5 (6 with funclets) rows.  The
    assignment changes none of the six arrays.  Hence a state with a
    nonzero count is the final state, its five tables and its directory
    fully populated, the header pointing at the directory, and no store
    went out of range on the way. *)
Theorem publish_last (k : nat) (st : State) :
  state_of (run cfg (take k (PopulateClrDebugHeaders_body cfg)) initial_state) = Some st ->
  exists before final b,
    run cfg (registrations cfg ++ directory_entries) initial_state = Returned tt before /\
    expand cfg Assign_DebugTableCount before = Returned tt final /\
    PopulateClrDebugHeaders cfg = Returned tt final /\
    ClrDebugHeader before = ClrDebugHeader_init /\
    arrays final = arrays before /\
    DebugTableCount (ClrDebugHeader final) = 5 /\
    DebugTableCount (ClrDebugHeader st) =
      (if (k <? length (PopulateClrDebugHeaders_body cfg))%nat then 0 else 5) /\
    Spec.calls cfg (registrations cfg) [] Spec.empty = Some (TypeIdVars final, b) /\
    represents before b /\
    s_DebugTables before = Spec.FinalizeTables b /\
    map RowCount (s_DebugTables before) =
      [8; 61; 147; 15; if defined_FEATURE_EH_FUNCLETS cfg then 6 else 5] /\
    (DebugTableCount (ClrDebugHeader st) = 0 \/
     (st = final /\
      represents st b /\
      s_DebugTables st = Spec.FinalizeTables b /\
      DebugTables (ClrDebugHeader st) = address_of sym_s_DebugTables /\
      stray_store st = false)).
Proof.
  intros Hst.
  destruct populate_last_step as (before & final & Hq & Hlast & Hrun).
  destruct populate_summary as (final' & Hrun' & _ & _ & _ & _ & _ & _ & _ & Hcount).
  assert (final' = final) as -> by congruence.
  destruct (populate_tables before final Hq Hlast)
    as (b & Hcalls & (Hrepb & Hdirb) & (Hrepf & Hdirf) & Hrc & Hstray).
  pose proof registrations_no_header_write as Hno.
  assert (ClrDebugHeader before = ClrDebugHeader_init) as Hbefore.
  { apply (run_header (registrations cfg ++ directory_entries) initial_state);
      [done|by rewrite Hq]. }
  pose proof (expand_Returned _ _ _ Hlast) as [_ Hfinal].
  assert (DebugTables (ClrDebugHeader final) = address_of sym_s_DebugTables) as Hptr.
  { rewrite Hfinal. simpl. by rewrite Hbefore. }
  assert (DebugTableCount (ClrDebugHeader st) =
            (if (k <? length (PopulateClrDebugHeaders_body cfg))%nat then 0 else 5) /\
          (DebugTableCount (ClrDebugHeader st) = 0 \/ st = final)) as [Hk Hor].
  { clear Hcalls Hrepb Hdirb Hrepf Hdirf Hrc Hstray Hptr Hbefore Hrun Hrun'.
    rewrite body_split in *. rewrite length_app.
    change (length [Assign_DebugTableCount]) with 1%nat.
    generalize dependent (registrations cfg ++ directory_entries). intros q Hst Hq Hno.
    destruct (Nat.ltb_spec k (length q + 1)) as [Hk|Hk].
    - rewrite take_app_le in Hst by lia.
      assert (ClrDebugHeader st = ClrDebugHeader_init) as ->.
      { apply (run_header (take k q) initial_state); [|done].
        by apply Forall_take. }
      auto.
    - rewrite take_ge in Hst by (rewrite length_app; simpl; lia).
      rewrite run_app, Hq in Hst. cbn [run] in Hst. unfold bind in Hst.
      rewrite Hlast in Hst. unfold ret in Hst. simpl in Hst.
      injection Hst as <-. split; [exact Hcount|by right]. }
  exists before, final, b.
  split; [exact Hq|]. split; [exact Hlast|]. split; [exact Hrun|].
  split; [exact Hbefore|]. split; [by rewrite Hfinal|]. split; [exact Hcount|].
  split; [exact Hk|]. split; [exact Hcalls|]. split; [exact Hrepb|].
  split; [exact Hdirb|]. split; [exact Hrc|].
  destruct Hor as [H0| ->]; [by left|right].
  split; [reflexivity|]. split; [exact Hrepf|]. split; [exact Hdirf|].
  split; [exact Hptr|exact Hstray].
Qed.

(** ** TypeIds *)

Lemma lookup_var_elem x vars v :
  lookup_var x vars = Some v -> v ∈ map snd vars.
Proof.
  induction vars as [|[y w] vars IH]; simpl; [done|].
  destruct (String.eqb x y).
  - intros [= ->]. apply list_elem_of_here.
  - intros H. apply list_elem_of_further. auto.
Qed.

Lemma seqZ_snoc n : 0 <= n -> seqZ 0 (n + 1) = seqZ 0 n ++ [n].
Proof.
  intros Hn. rewrite seqZ_app by lia. f_equal.
Qed.

Lemma effect_TypeIds s st :
  well_sized st ->
  stray_store (effect cfg s st) = false ->
  TypeIds_in_sequence st -> TypeIds_in_sequence (effect cfg s st).
Proof.
  unfold TypeIds_in_sequence, returned_TypeIds. intros Hw Hs Hseq.
  destruct s; simpl in *; try done.
  apply orb_false_elim in Hs as [_ Hs].
  destruct (well_sized_append st TypePos Hw) as [H0 Hlen]; simpl in H0, Hlen.
  destruct (rows_append _ _ (mkDebugTypeRow None 0) H0 Hlen Hs) as (-> & _ & _).
  by rewrite reverse_cons, Hseq, seqZ_snoc.
Qed.

Lemma run_TypeIds p st st' :
  well_sized st ->
  TypeIds_in_sequence st ->
  state_of (run cfg p st) = Some st' ->
  stray_store st' = false ->
  TypeIds_in_sequence st'.
Proof.
  revert st. induction p as [|s p IH]; intros st Hw Hseq Hrun Hs.
  - simpl in Hrun. congruence.
  - apply run_cons_state in Hrun as [_ [->|Hrun]].
    + by apply effect_TypeIds.
    + apply (IH (effect cfg s st)); auto using effect_well_sized.
      apply effect_TypeIds; auto. eapply run_stray; eauto.
Qed.

(** Where a program has got to within bounds: sizes, counters, TypeIds. *)
Lemma reached_within_bounds pre st :
  run cfg pre initial_state = Returned tt st ->
  stray_store st = false ->
  well_sized st /\
  (forall c, current c st = registered c pre) /\
  TypeIds_in_sequence st.
Proof.
  intros Hrun Hs.
  assert (state_of (run cfg pre initial_state) = Some st) as Hst by (by rewrite Hrun).
  split; [|split].
  - apply (run_well_sized pre initial_state); [apply well_sized_initial|done].
  - intros c. rewrite (run_current pre initial_state st c well_sized_initial Hrun Hs).
    by destruct c.
  - apply (run_TypeIds pre initial_state); [apply well_sized_initial|reflexivity|done..].
Qed.

(** C4 (TypeIds are indices): when [MAKE_TYPE_ENTRY_WITH_ID] runs within
    bounds after any statements [pre], the id variable it declares holds
    the number of type registrations in [pre], the row it stores sits at
    that index of the type table, and the ids handed out so far are 0, 1,
    2, ... in call order: the call number N gets N-1, the sequence
    increases strictly and no id occurs twice. *)
Theorem RegisterType_returns_index
    (pre : list statement) (TypeName TypeIdName : string) (st st' : State) :
  run cfg pre initial_state = Returned tt st ->
  expand cfg (MAKE_TYPE_ENTRY_WITH_ID TypeName TypeIdName) st = Returned tt st' ->
  stray_store st' = false ->
  lookup_var TypeIdName (TypeIdVars st') = Some (registered TypePos pre) /\
  s_DebugTypes st' !! Z.to_nat (registered TypePos pre) =
    Some (mkDebugTypeRow (Some TypeName) (u32 (sizeof cfg TypeName))) /\
  returned_TypeIds st' = seqZ 0 (registered TypePos pre + 1) /\
  (forall i v, returned_TypeIds st' !! i = Some v -> v = Z.of_nat i) /\
  (forall i j a b, (i < j)%nat ->
     returned_TypeIds st' !! i = Some a -> returned_TypeIds st' !! j = Some b -> a < b) /\
  NoDup (returned_TypeIds st').
Proof.
  intros Hpre Hexp Hs'.
  apply expand_Returned in Hexp as [Hsc ->].
  pose proof (effect_stray _ _ Hs') as Hs.
  destruct (reached_within_bounds pre st Hpre Hs) as (Hw & Hcur & Hseq).
  pose proof (effect_TypeIds _ _ Hw Hs' Hseq) as Hseq'.
  unfold TypeIds_in_sequence in Hseq'.
  simpl in Hs'. apply orb_false_elim in Hs' as [_ Hin].
  destruct (well_sized_append st TypePos Hw) as [H0 Hlen]; simpl in H0, Hlen.
  destruct (rows_append _ _ (mkDebugTypeRow (Some TypeName) (u32 (sizeof cfg TypeName)))
              H0 Hlen Hin) as (Hu & Hrow & _).
  rewrite Hseq'. simpl. rewrite Hu, <- (Hcur TypePos). simpl.
  rewrite String.eqb_refl.
  split; [done|]. split; [exact Hrow|]. split; [done|].
  split; [|split].
  - intros i v [-> _]%lookup_seqZ. lia.
  - intros i j a b Hij [-> _]%lookup_seqZ [-> _]%lookup_seqZ. lia.
  - apply NoDup_seqZ.
Qed.

(** C5 (no forward references): when a field or base macro runs within
    bounds after any statements [pre], the row it appends carries a TypeId
    that is at least 0 and strictly below the number of rows the type
    table holds at that moment, which is the number of type registrations
    in [pre]; the TypeId is one that a type registration handed out. *)
Theorem no_forward_reference
    (pre : list statement) (s : statement) (c : counter) (st st' : State) :
  c = FieldPos \/ c = BasePos ->
  appends c s = true ->
  run cfg pre initial_state = Returned tt st ->
  expand cfg s st = Returned tt st' ->
  stray_store st' = false ->
  exists row,
    member_rows c st' !! Z.to_nat (current c st) = Some row /\
    0 <= TypeId row < currentTypePos st /\
    currentTypePos st = registered TypePos pre /\
    currentTypePos st' = currentTypePos st /\
    TypeId row ∈ returned_TypeIds st.
Proof.
  intros Hc Happ Hpre Hexp Hs'.
  apply expand_Returned in Hexp as [Hsc ->].
  pose proof (effect_stray _ _ Hs') as Hs.
  destruct (reached_within_bounds pre st Hpre Hs) as (Hw & Hcur & Hseq).
  assert (forall x id, lookup_var x (TypeIdVars st) = Some id ->
            0 <= id < currentTypePos st /\ id ∈ returned_TypeIds st) as Hid.
  { intros x id Hx. apply lookup_var_elem in Hx.
    assert (id ∈ returned_TypeIds st) as Hel.
    { unfold returned_TypeIds. by apply elem_of_reverse. }
    split; [|done]. rewrite Hseq in Hel. apply elem_of_seqZ in Hel. lia. }
  destruct Hc as [-> | ->]; destruct s; try discriminate Happ;
    simpl in Hsc, Hs' |- *; apply orb_false_elim in Hs' as [_ Hin];
    destruct (lookup_var TypeIdName (TypeIdVars st)) as [id|] eqn:Hx; try discriminate;
    destruct (Hid _ _ Hx) as [Hrange Hel]; simpl.
  - destruct (well_sized_append st FieldPos Hw) as [H0 Hlen]; simpl in H0, Hlen.
    destruct (rows_append _ _
                (mkDebugMemberOffsetRow (Some FieldName) id
                   (u32 (offsetof cfg TypeName0 FieldName)))
                H0 Hlen Hin) as (_ & Hrow & _).
    eexists. split; [exact Hrow|]. simpl. rewrite <- (Hcur TypePos). done.
  - destruct (well_sized_append st BasePos Hw) as [H0 Hlen]; simpl in H0, Hlen.
    destruct (rows_append _ _
                (mkDebugMemberOffsetRow (Some BaseType) id
                   (u32 (baseoffset cfg TypeName0 BaseType FieldName)))
                H0 Hlen Hin) as (_ & Hrow & _).
    eexists. split; [exact Hrow|]. simpl. rewrite <- (Hcur TypePos). done.
Qed.

(** ** Base offsets *)

(** C9 (base offsets): a base macro that runs below the capacity of the
    base table, for a derived type [TypeName] whose id variable holds [id]
    and a member [FieldName] that lies no earlier in the derived type than
    in the base, returns and stores at the current position the row made
    of the base type's name, [id], and the offset of the member in the
    derived type minus its offset in the base. *)
Theorem RegisterBase_records_offset
    (TypeName TypeIdName BaseType FieldName : string) (id : Z) (st : State) :
  well_sized st ->
  currentBasePos st < DebugBasesArraySize ->
  lookup_var TypeIdName (TypeIdVars st) = Some id ->
  0 <= offsetof cfg BaseType FieldName <= offsetof cfg TypeName FieldName ->
  offsetof cfg TypeName FieldName < 2 ^ 32 ->
  exists st',
    expand cfg (MAKE_BASE_TYPE_ENTRY_WITH_ID TypeName TypeIdName BaseType FieldName) st
      = Returned tt st' /\
    s_DebugBases st' !! Z.to_nat (currentBasePos st) =
      Some (mkDebugMemberOffsetRow (Some BaseType) id
              (offsetof cfg TypeName FieldName - offsetof cfg BaseType FieldName)) /\
    currentBasePos st' = currentBasePos st + 1.
Proof.
  intros Hw Hpos Hid Hoff Hsmall.
  destruct (Hw BasePos) as [Hlen H0]. simpl in Hlen, H0.
  assert (past_end (s_DebugBases st) (currentBasePos st) = false) as Hin.
  { unfold past_end. apply Z.leb_gt. lia. }
  assert (Z.of_nat (length (s_DebugBases st)) < 2 ^ 32) as Hlt.
  { rewrite Hlen. done. }
  destruct (rows_append _ _
              (mkDebugMemberOffsetRow (Some BaseType) id
                 (u32 (baseoffset cfg TypeName BaseType FieldName)))
              H0 Hlt Hin) as (Hu & Hrow & _).
  rewrite expand_effect. simpl. rewrite Hid. simpl. rewrite Hu.
  assert ((currentBasePos st + 1 <=? DebugBasesArraySize) = true) as ->
    by (apply Z.leb_le; lia).
  rewrite andb_false_r. eexists. split; [reflexivity|]. simpl.
  split; [|done]. rewrite Hrow. do 2 f_equal.
  unfold baseoffset. apply u32_small. lia.
Qed.

(** ** Capacity *)

Lemma store_past_end {A} (arr : list A) (cap : Z) (x : A) :
  Z.of_nat (length arr) = cap ->
  array_store arr cap x = arr /\ past_end arr cap = true.
Proof.
  intros Hl. unfold array_store, past_end. split.
  - apply list_insert_ge. lia.
  - apply Z.leb_le. lia.
Qed.

(** C2, as amended (capacity with assertions compiled in): where [ASSERT]
    is active, a macro whose array is full does not return: the assertion
    that follows its store and increment fails and the builder halts
    there, whatever statements come after it.  The store the macro issued
    before the check was one past the end of its array; what that store
    hit is not stated. *)
Theorem capacity_exceeded_is_fatal_when_asserting
    (s : statement) (c : counter) (st : State) :
  assertions_enabled cfg = true ->
  well_sized st ->
  appends c s = true ->
  current c st = capacity c ->
  well_scoped s st = true ->
  exists st',
    expand cfg s st = AssertionFailed st' /\
    stray_store st' = true /\
    forall rest, run cfg (s :: rest) st = AssertionFailed st'.
Proof.
  intros Hassert Hw Happ Hfull Hsc.
  assert (exists st', expand cfg s st = AssertionFailed st' /\ stray_store st' = true)
    as (st' & Hfail & Hstray).
  { rewrite expand_effect, Hsc, Hassert.
    destruct (Hw c) as [Hlen _].
    destruct s, c; try discriminate Happ; simpl in Hfull, Hlen |- *; rewrite Hfull;
      match goal with
      | |- context [array_store ?arr ?cap ?x] =>
          destruct (store_past_end arr cap x Hlen) as [Hkeep Hpast]
      end;
      (eexists; split; [reflexivity|]); simpl;
      rewrite Hpast, ?orb_true_r; done. }
  exists st'. split; [exact Hfail|]. split; [exact Hstray|].
  intros rest. simpl. unfold bind. by rewrite Hfail.
Qed.

End BuilderFacts.

(** * Instances of the builder theorems *)


(** An instance: the end of the whole pass of a debug build, where the
    count is 5 and the directory lists the five tables with their rows. *)
Lemma publish_last_witness :
  state_of (run debug_build
              (take 243 (PopulateClrDebugHeaders_body debug_build)) initial_state)
    = Some (state_after debug_build (PopulateClrDebugHeaders_body debug_build)) /\
  DebugTableCount
    (ClrDebugHeader (state_after debug_build (PopulateClrDebugHeaders_body debug_build))) = 5 /\
  map RowCount
    (s_DebugTables (state_after debug_build (PopulateClrDebugHeaders_body debug_build)))
    = [8; 61; 147; 15; 6].
Proof.
  assert (state_of (run debug_build
                      (take 243 (PopulateClrDebugHeaders_body debug_build)) initial_state)
          = Some (state_after debug_build (PopulateClrDebugHeaders_body debug_build))) as H.
  { vm_compute. reflexivity. }
  split; [exact H|].
  destruct (publish_last debug_build 243 _ H)
    as (before & final & b & _ & _ & _ & _ & Harr & _ & Hk & _ & _ & _ & Hrc & Hor).
  split; [exact Hk|].
  destruct Hor as [H0|(Hfinal & _)].
  - rewrite Hk in H0. vm_compute in H0. discriminate H0.
  - rewrite Hfinal.
    replace (s_DebugTables final) with (s_DebugTables before); [exact Hrc|].
    symmetry. exact (f_equal (fun x => fst (fst (fst (fst (fst x))))) Harr).
Defined.

(** An instance: the header in the final state of that pass. *)
Lemma header_identity_fixed_witness :
  passes_through debug_build (PopulateClrDebugHeaders_body debug_build) initial_state
    (state_after debug_build (PopulateClrDebugHeaders_body debug_build)) /\
  Cookie (ClrDebugHeader
            (state_after debug_build (PopulateClrDebugHeaders_body debug_build)))
    = [Byte.x20; Byte.x43; Byte.x44; Byte.x48].
Proof.
  assert (passes_through debug_build (PopulateClrDebugHeaders_body debug_build)
            initial_state
            (state_after debug_build (PopulateClrDebugHeaders_body debug_build))) as H.
  { exists 243%nat. vm_compute. reflexivity. }
  split; [exact H|].
  exact (proj1 (header_identity_fixed debug_build _ _ H)).
Defined.

(** An instance: the directory for one type with two fields. *)
Lemma directory_after_FinalizeTables_witness :
  forallb registration Point_registrations = true /\
  run debug_build Point_registrations initial_state
    = Returned tt (state_after debug_build Point_registrations) /\
  stray_store (state_after debug_build Point_registrations) = false /\
  exists st,
    run debug_build FinalizeTables (state_after debug_build Point_registrations)
      = Returned tt st /\
    s_DebugTables st =
      [ mkDebugTable (Some "Global") (address_of sym_s_DebugGlobals) 0;
        mkDebugTable (Some "Type") (address_of sym_s_DebugTypes) 1;
        mkDebugTable (Some "Field") (address_of sym_s_DebugFields) 2;
        mkDebugTable (Some "Base") (address_of sym_s_DebugBases) 0;
        mkDebugTable (Some "Define") (address_of sym_s_DebugDefines) 0 ].
Proof.
  assert (forallb registration Point_registrations = true) as H1 by reflexivity.
  assert (run debug_build Point_registrations initial_state
          = Returned tt (state_after debug_build Point_registrations)) as H2
    by (vm_compute; reflexivity).
  assert (stray_store (state_after debug_build Point_registrations) = false) as H3
    by (vm_compute; reflexivity).
  split; [exact H1|]. split; [exact H2|]. split; [exact H3|].
  destruct (directory_after_FinalizeTables debug_build _ _ H1 H2 H3)
    as (st & Hrun & Hdir & _).
  exists st. split; [exact Hrun|exact Hdir].
Defined.

(** An instance, the example of the spec: [Point] of size 8
    gets TypeId 0, its fields [x] at 0 and [y] at 4 become the first two
    field rows, and the Field entry of the directory counts 2 rows. *)
Lemma tables_as_registered_witness :
  forallb registration Point_registrations = true /\
  run debug_build Point_registrations initial_state
    = Returned tt (state_after debug_build Point_registrations) /\
  stray_store (state_after debug_build Point_registrations) = false /\
  exists st,
    run debug_build FinalizeTables (state_after debug_build Point_registrations)
      = Returned tt st /\
    TypeIdVars st = [("PointTypeId"%string, 0)] /\
    rows (s_DebugTypes st) (currentTypePos st) = [ mkDebugTypeRow (Some "Point") 8 ] /\
    rows (s_DebugFields st) (currentFieldPos st) =
      [ mkDebugMemberOffsetRow (Some "x") 0 0; mkDebugMemberOffsetRow (Some "y") 0 4 ] /\
    map RowCount (s_DebugTables st) = [0; 1; 2; 0; 0].
Proof.
  assert (forallb registration Point_registrations = true) as H1 by reflexivity.
  assert (run debug_build Point_registrations initial_state
          = Returned tt (state_after debug_build Point_registrations)) as H2
    by (vm_compute; reflexivity).
  assert (stray_store (state_after debug_build Point_registrations) = false) as H3
    by (vm_compute; reflexivity).
  split; [exact H1|]. split; [exact H2|]. split; [exact H3|].
  destruct (tables_as_registered debug_build _ _ H1 H2 H3)
    as (b & st & Hcalls & _ & Hrun & (_ & Hty & Hf & _ & _) & _ & Hcount).
  vm_compute in Hcalls. injection Hcalls as <-.
  exists st. split; [exact Hrun|].
  assert (st = state_after debug_build (Point_registrations ++ FinalizeTables)) as Hst.
  { unfold state_after. rewrite run_app, H2, Hrun. reflexivity. }
  split; [rewrite Hst; vm_compute; reflexivity|].
  split; [exact Hty|]. split; [exact Hf|exact Hcount].
Defined.

(** An instance, the start of the real pass: after the three statements
    for [ThreadStore], the type [Thread] gets TypeId 1. *)
Lemma RegisterType_returns_index_witness :
  run debug_build (take 3 registrations_head) initial_state
    = Returned tt (state_after debug_build (take 3 registrations_head)) /\
  expand debug_build (MAKE_TYPE_ENTRY "Thread")
    (state_after debug_build (take 3 registrations_head))
    = Returned tt (state_after debug_build (take 4 registrations_head)) /\
  stray_store (state_after debug_build (take 4 registrations_head)) = false /\
  lookup_var "ThreadTypeId" (TypeIdVars (state_after debug_build (take 4 registrations_head)))
    = Some 1 /\
  returned_TypeIds (state_after debug_build (take 4 registrations_head)) = [0; 1].
Proof.
  assert (run debug_build (take 3 registrations_head) initial_state
          = Returned tt (state_after debug_build (take 3 registrations_head))) as H1
    by (vm_compute; reflexivity).
  assert (expand debug_build (MAKE_TYPE_ENTRY "Thread")
            (state_after debug_build (take 3 registrations_head))
          = Returned tt (state_after debug_build (take 4 registrations_head)))
    as H2 by (vm_compute; reflexivity).
  assert (stray_store (state_after debug_build (take 4 registrations_head)) = false)
    as H3 by (vm_compute; reflexivity).
  split; [exact H1|]. split; [exact H2|]. split; [exact H3|].
  destruct (RegisterType_returns_index debug_build _ _ _ _ _ H1 H2 H3)
    as (Hid & _ & Hseq & _).
  vm_compute in Hid, Hseq. split; [exact Hid|exact Hseq].
Defined.

(** An instance, the start of the real pass: the field [m_Link] of
    [Thread], appended when two types are registered, refers to TypeId 1. *)
Lemma no_forward_reference_witness :
  (FieldPos = FieldPos \/ FieldPos = BasePos) /\
  appends FieldPos (MAKE_FIELD_ENTRY "Thread" "m_Link") = true /\
  run debug_build (take 4 registrations_head) initial_state
    = Returned tt (state_after debug_build (take 4 registrations_head)) /\
  expand debug_build (MAKE_FIELD_ENTRY "Thread" "m_Link")
    (state_after debug_build (take 4 registrations_head))
    = Returned tt (state_after debug_build (take 5 registrations_head)) /\
  stray_store (state_after debug_build (take 5 registrations_head)) = false /\
  exists row,
    s_DebugFields (state_after debug_build (take 5 registrations_head)) !! 1%nat
      = Some row /\
    0 <= TypeId row < 2.
Proof.
  assert (FieldPos = FieldPos \/ FieldPos = BasePos) as H0 by (left; reflexivity).
  assert (appends FieldPos (MAKE_FIELD_ENTRY "Thread" "m_Link") = true) as H1
    by reflexivity.
  assert (run debug_build (take 4 registrations_head) initial_state
          = Returned tt (state_after debug_build (take 4 registrations_head))) as H2
    by (vm_compute; reflexivity).
  assert (expand debug_build (MAKE_FIELD_ENTRY "Thread" "m_Link")
            (state_after debug_build (take 4 registrations_head))
          = Returned tt (state_after debug_build (take 5 registrations_head))) as H3
    by (vm_compute; reflexivity).
  assert (stray_store (state_after debug_build (take 5 registrations_head)) = false)
    as H4 by (vm_compute; reflexivity).
  split; [exact H0|]. split; [exact H1|]. split; [exact H2|].
  split; [exact H3|]. split; [exact H4|].
  destruct (no_forward_reference debug_build _ _ _ _ _ H0 H1 H2 H3 H4)
    as (row & Hrow & Hrange & _).
  exists row. vm_compute in Hrow, Hrange |- *. split; [exact Hrow|exact Hrange].
Defined.

(** An instance, [Derived] over [Base]: the member
    [m] is at 12 in the derived type and at 4 in the base, so the base
    sub-object starts at 8. *)
Lemma RegisterBase_records_offset_witness :
  well_sized (state_after debug_build [MAKE_TYPE_ENTRY "Base"; MAKE_TYPE_ENTRY "Derived"]) /\
  exists st',
    expand debug_build (MAKE_BASE_TYPE_ENTRY "Derived" "Base" "m")
      (state_after debug_build [MAKE_TYPE_ENTRY "Base"; MAKE_TYPE_ENTRY "Derived"])
      = Returned tt st' /\
    s_DebugBases st' !! 0%nat = Some (mkDebugMemberOffsetRow (Some "Base") 1 8).
Proof.
  assert (well_sized
            (state_after debug_build [MAKE_TYPE_ENTRY "Base"; MAKE_TYPE_ENTRY "Derived"]))
    as Hw.
  { intros c. destruct c; vm_compute; split; congruence. }
  split; [exact Hw|].
  destruct (RegisterBase_records_offset debug_build "Derived" "DerivedTypeId" "Base" "m" 1
              (state_after debug_build [MAKE_TYPE_ENTRY "Base"; MAKE_TYPE_ENTRY "Derived"]))
    as (st' & Hrun & Hrow & _).
  - exact Hw.
  - vm_compute. reflexivity.
  - vm_compute. reflexivity.
  - vm_compute. split; congruence.
  - vm_compute. reflexivity.
  - exists st'. split; [exact Hrun|exact Hrow].
Defined.

(** An instance: the fifty-first global of a debug build. *)
Lemma capacity_exceeded_is_fatal_when_asserting_witness :
  assertions_enabled debug_build = true /\
  current GlobalPos (state_after debug_build fifty_globals) = capacity GlobalPos /\
  exists st',
    expand debug_build (MAKE_GLOBAL_ENTRY "g_extra") (state_after debug_build fifty_globals)
      = AssertionFailed st' /\
    run debug_build [MAKE_GLOBAL_ENTRY "g_extra"; MAKE_GLOBAL_ENTRY "g_more"]
      (state_after debug_build fifty_globals)
      = AssertionFailed st'.
Proof.
  split; [reflexivity|]. split; [vm_compute; reflexivity|].
  destruct (capacity_exceeded_is_fatal_when_asserting debug_build
              (MAKE_GLOBAL_ENTRY "g_extra") GlobalPos
              (state_after debug_build fifty_globals))
    as (st' & Hfail & _ & Hrun).
  - reflexivity.
  - intros c. destruct c; vm_compute; split; congruence.
  - reflexivity.
  - vm_compute. reflexivity.
  - reflexivity.
  - exists st'. split; [exact Hfail|exact (Hrun [MAKE_GLOBAL_ENTRY "g_more"])].
Defined.

(** C2, counterexample: in a release build, where [ASSERT] expands to
    nothing, fifty-one global registrations run to the end; the last one
    returns with the counter at 51, past the 50 rows of the array, having
    stored out of range.  So the capacity rule does not hold for every
    build. *)
Lemma capacity_exceeded_returns_in_release :
  (exists st,
     run release_build (fifty_globals ++ [MAKE_GLOBAL_ENTRY "g_extra"]) initial_state
       = Returned tt st /\
     currentGlobalPos st = 51 /\
     length (s_DebugGlobals st) = 50%nat /\
     stray_store st = true) /\
  ~ (forall cfg, halts_at_capacity cfg).
Proof.
  split.
  - eexists. split; [vm_compute; reflexivity|]. vm_compute. repeat split.
  - intros H.
    destruct (H release_build (MAKE_GLOBAL_ENTRY "g_extra") GlobalPos
                (state_after release_build fifty_globals)) as [st' Hst'].
    + intros c. destruct c; vm_compute; split; congruence.
    + reflexivity.
    + vm_compute. reflexivity.
    + reflexivity.
    + vm_compute in Hst'. discriminate Hst'.
Qed.

(** * Properties of [minipal_getexepath] *)

(** C8, as amended (failure of the path query): when the platform's query
    fails the function returns [NULL], except on the [/proc] branch built
    with [getauxval] and [AT_EXECFN], where it returns what the fallback
    yields, [realpath] of the [AT_EXECFN] string, and [NULL] only if that
    yields nothing.  A path that is returned is never made up: it is an
    output of [realpath], or the buffer the system filled (FreeBSD,
    Windows), or the fixed "/managed" of the WebAssembly build. *)
Theorem getexepath_failure (t : Minipal.Target) (os : Minipal.OS) (errno : Z) :
  (Minipal.query_fails t os = true ->
   fst (Minipal.minipal_getexepath t os errno) =
     (if Minipal.has_fallback t then Minipal.fallback os else None)) /\
  (forall path,
     fst (Minipal.minipal_getexepath t os errno) = Some path ->
     (exists p, Minipal.realpath os p = Some path) \/
     (Minipal.defined___FreeBSD__ t = true /\
      path = snd (Minipal.sysctl_KERN_PROC_PATHNAME os)) \/
     (Minipal.defined__WIN32 t = true /\
      path = snd (Minipal.GetModuleFileNameA os)) \/
     (Minipal.defined_TARGET_WASM t = true /\ path = "/managed"%string)).
Proof.
  unfold Minipal.minipal_getexepath, Minipal.query_fails, Minipal.has_fallback,
    Minipal.fallback, Minipal.strdup.
  destruct t as [apple freebsd sun haiku win32 wasm linux aux execfn]; simpl.
  destruct (Minipal._NSGetExecutablePath os) as [rc1 buf1].
  destruct (Minipal.sysctl_KERN_PROC_PATHNAME os) as [rc2 buf2].
  destruct (Minipal.find_path os) as [rc3 buf3].
  destruct (Minipal.GetModuleFileNameA os) as [rc4 buf4].
  simpl.
  destruct apple.
  { destruct (rc1 =? 0); simpl; split; try done; eauto. }
  destruct freebsd.
  { destruct (rc2 =? 0), (Minipal.malloc_succeeds os); simpl; split; try done.
    intros ? [= <-]. auto. }
  destruct sun.
  { destruct (Minipal.getexecname os); simpl; split; try done; eauto. }
  destruct haiku.
  { destruct (rc3 =? Minipal.B_OK); simpl; split; try done; eauto. }
  destruct win32.
  { destruct (rc4 =? 0), (Minipal.malloc_succeeds os); simpl; split; try done.
    intros ? [= <-]. auto 6. }
  destruct wasm.
  { destruct (Minipal.malloc_succeeds os); simpl; split; try done.
    intros ? [= <-]. auto 6. }
  destruct (Minipal.realpath os (if linux then _ else _)) eqn:Hproc; simpl.
  { split; [done|]. intros ? [= <-]. eauto. }
  destruct (aux && execfn); simpl; [|by split].
  destruct (Minipal.getauxval_AT_EXECFN os) as [exePath|]; simpl; split; try done.
  eauto.
Qed.

(** An instance, Linux without [getauxval]: nothing to fall back on, so
    the failed [/proc] lookup comes back as [NULL]. *)
Lemma getexepath_failure_witness :
  Minipal.query_fails Minipal.linux_without_getauxval Minipal.proc_unreadable = true /\
  fst (Minipal.minipal_getexepath Minipal.linux_without_getauxval Minipal.proc_unreadable 0)
    = None.
Proof.
  assert (Minipal.query_fails Minipal.linux_without_getauxval Minipal.proc_unreadable = true)
    as H by reflexivity.
  split; [exact H|].
  exact (proj1 (getexepath_failure Minipal.linux_without_getauxval Minipal.proc_unreadable 0) H).
Defined.

(** C8, counterexample: on Linux with [getauxval], when [realpath] of
    [/proc/self/exe] fails but the process was started as [./dotnet], the
    function does not return [NULL]: it returns the resolved [AT_EXECFN]
    path.  So a failed query is not always propagated. *)
Lemma getexepath_falls_back_on_failure :
  Minipal.query_fails Minipal.linux_with_getauxval Minipal.proc_unreadable = true /\
  fst (Minipal.minipal_getexepath Minipal.linux_with_getauxval Minipal.proc_unreadable 0)
    = Some "/usr/share/dotnet/dotnet"%string /\
  ~ Minipal.failure_always_propagated.
Proof.
  split; [reflexivity|]. split; [reflexivity|].
  intros H.
  specialize (H Minipal.linux_with_getauxval Minipal.proc_unreadable 0 eq_refl).
  discriminate H.
Qed.

(** * Properties of whole programs *)

Section WholePrograms.
Context (cfg : Config).

(** ** The arrays under a statement *)

Lemma effect_array s st c :
  array_of c (effect cfg s st) =
  if appends c s
  then <[Z.to_nat (current c st) := written cfg s st]> (array_of c st)
  else array_of c st.
Proof.
  destruct s, c; simpl; unfold array_store; rewrite ?list_fmap_insert; reflexivity.
Qed.

Lemma length_array_of c st : length (array_of c st) = array_length c st.
Proof. destruct c; simpl; apply length_fmap. Qed.

Lemma effect_in_range s st c :
  well_sized st ->
  stray_store (effect cfg s st) = false ->
  appends c s = true ->
  0 <= current c st < capacity c.
Proof.
  intros Hw Hs Happ. destruct (Hw c) as [Hlen H0]. split; [done|].
  destruct s, c; try discriminate Happ; simpl in *;
    apply orb_false_elim in Hs as [_ Hs]; unfold past_end in Hs; lia.
Qed.

Lemma effect_counter_other s st c :
  appends c s = false -> current c (effect cfg s st) = current c st.
Proof. destruct s, c; simpl; congruence. Qed.

Lemma registered_nonneg c p : 0 <= registered c p.
Proof. induction p as [|s p IH]; simpl; [done|]. destruct (appends c s); lia. Qed.

Lemma registered_app c p q : registered c (p ++ q) = registered c p + registered c q.
Proof. induction p as [|s p IH]; simpl; [done|]. rewrite IH. lia. Qed.

Lemma registered_none c p :
  registered c p = 0 -> Forall (fun s => appends c s = false) p.
Proof.
  induction p as [|s p IH]; simpl; intros H; [constructor|].
  pose proof (registered_nonneg c p).
  destruct (appends c s) eqn:Hs; [lia|]. constructor; [done|]. apply IH. lia.
Qed.

(** X6 (what a program leaves alone): a program none of whose statements
    appends to the array of [c] leaves that array and its counter exactly
    as they were, in every state it passes through within bounds, whatever
    else it does and whether or not it runs to the end.  So the
    registrations never touch the directory, and the finalisation never
    touches a row table. *)
Theorem untouched_array_unchanged (c : counter) (p : list statement) (st st' : State) :
  registered c p = 0 ->
  passes_through cfg p st st' ->
  stray_store st' = false ->
  array_of c st' = array_of c st /\ current c st' = current c st.
Proof.
  intros Hnone Hpass _.
  apply (passes_through_invariant cfg (fun s => appends c s = false)
           (fun x => array_of c x = array_of c st /\ current c x = current c st))
    with (p := p) (st := st); auto using registered_none.
  intros s x Hs _ [Harr Hcur].
  by rewrite effect_array, Hs, effect_counter_other.
Qed.

(** ** Rows below and slots above the counter *)

(** Within bounds the counters only grow. *)
Lemma run_counter_grows p st st' c :
  well_sized st ->
  state_of (run cfg p st) = Some st' ->
  stray_store st' = false ->
  current c st <= current c st'.
Proof.
  revert st. induction p as [|s p IH]; intros st Hw Hrun Hs.
  - simpl in Hrun. injection Hrun as <-. lia.
  - assert (stray_store (effect cfg s st) = false -> current c st <= current c (effect cfg s st))
      as Hstep.
    { intros Hs1. destruct (effect_current cfg s st c Hw Hs1) as [-> _].
      destruct (appends c s); lia. }
    apply run_cons_state in Hrun as [_ [->|Hrun]]; [auto|].
    assert (stray_store (effect cfg s st) = false) as Hs1 by (eapply run_stray; eauto).
    specialize (IH _ (effect_well_sized cfg s st Hw) Hrun Hs). specialize (Hstep Hs1). lia.
Qed.

Lemma run_rows_kept p st st' c :
  well_sized st ->
  state_of (run cfg p st) = Some st' ->
  stray_store st' = false ->
  take (Z.to_nat (current c st)) (array_of c st') =
  take (Z.to_nat (current c st)) (array_of c st).
Proof.
  revert st. induction p as [|s p IH]; intros st Hw Hrun Hs.
  - simpl in Hrun. by injection Hrun as <-.
  - assert (take (Z.to_nat (current c st)) (array_of c (effect cfg s st)) =
            take (Z.to_nat (current c st)) (array_of c st)) as Hstep.
    { rewrite effect_array. destruct (appends c s); [|done]. by rewrite take_insert_ge. }
    apply run_cons_state in Hrun as [_ [->|Hrun]]; [done|].
    assert (stray_store (effect cfg s st) = false) as Hs1 by (eapply run_stray; eauto).
    pose proof (IH _ (effect_well_sized cfg s st Hw) Hrun Hs) as IH'.
    destruct (effect_current cfg s st c Hw Hs1) as [Hcur _].
    destruct (Hw c) as [_ H0].
    assert (Nat.min (Z.to_nat (current c st)) (Z.to_nat (current c (effect cfg s st)))
            = Z.to_nat (current c st)) as Hmin by (destruct (appends c s); lia).
    rewrite <- Hstep, <- Hmin, <- !take_take. by rewrite IH'.
Qed.

Lemma run_slots_untouched p st st' c :
  well_sized st ->
  state_of (run cfg p st) = Some st' ->
  stray_store st' = false ->
  drop (Z.to_nat (current c st')) (array_of c st') =
  drop (Z.to_nat (current c st')) (array_of c st).
Proof.
  revert st. induction p as [|s p IH]; intros st Hw Hrun Hs.
  - simpl in Hrun. by injection Hrun as <-.
  - assert (forall n, stray_store (effect cfg s st) = false ->
              current c (effect cfg s st) <= n ->
              drop (Z.to_nat n) (array_of c (effect cfg s st)) =
              drop (Z.to_nat n) (array_of c st)) as Hstep.
    { intros n Hs1 Hn. rewrite effect_array.
      destruct (effect_current cfg s st c Hw Hs1) as [Hcur _].
      destruct (Hw c) as [_ H0].
      destruct (appends c s); [|done]. rewrite drop_insert_lt; [done|lia]. }
    apply run_cons_state in Hrun as [_ [->|Hrun]]; [apply Hstep; [done|lia]|].
    assert (stray_store (effect cfg s st) = false) as Hs1 by (eapply run_stray; eauto).
    rewrite (IH _ (effect_well_sized cfg s st Hw) Hrun Hs).
    apply Hstep; [done|].
    apply (run_counter_grows p); auto using effect_well_sized.
Qed.

(** X4 (tables are append-only): while a program runs within bounds from
    any well-sized state, the rows an array already held below its counter
    are never changed, in any state the run passes through. *)
Theorem rows_never_rewritten (c : counter) (p : list statement) (st st' : State) :
  well_sized st ->
  passes_through cfg p st st' ->
  stray_store st' = false ->
  current c st <= current c st' /\
  take (Z.to_nat (current c st)) (array_of c st') =
  take (Z.to_nat (current c st)) (array_of c st).
Proof.
  intros Hw [k Hk] Hs. split.
  - by apply (run_counter_grows (take k p)).
  - by apply (run_rows_kept (take k p)).
Qed.

Lemma array_of_initial c :
  array_of c initial_state = replicate (Z.to_nat (capacity c)) (zero_row c).
Proof. destruct c; reflexivity. Qed.

(** X5 (unused slots stay zero): in every state a program passes through
    within bounds, starting from the initial state, the slots of an array
    from its counter upwards are still zero-initialised: a null name and
    zero fields.  The array is its rows followed by zeros. *)
Theorem unused_slots_stay_zero (c : counter) (p : list statement) (st : State) :
  passes_through cfg p initial_state st ->
  stray_store st = false ->
  array_of c st =
  take (Z.to_nat (current c st)) (array_of c st) ++
  replicate (Z.to_nat (capacity c - current c st)) (zero_row c).
Proof.
  intros [k Hk] Hs.
  rewrite <- (take_drop (Z.to_nat (current c st)) (array_of c st)) at 1. f_equal.
  rewrite (run_slots_untouched (take k p) initial_state st c well_sized_initial Hk Hs).
  rewrite array_of_initial, drop_replicate. f_equal.
  assert (0 <= current c st).
  { pose proof (run_counter_grows (take k p) initial_state st c well_sized_initial Hk Hs).
    by destruct c. }
  lia.
Qed.

(** ** Where a row ends up *)

Lemma run_split pre s post st0 final :
  run cfg (pre ++ s :: post) st0 = Returned tt final ->
  exists st,
    run cfg pre st0 = Returned tt st /\
    well_scoped s st = true /\
    run cfg post (effect cfg s st) = Returned tt final.
Proof.
  rewrite run_app. destruct (run cfg pre st0) as [[] st| |]; try discriminate.
  intros [Hsc Hrun]%run_cons_Returned. eauto.
Qed.

Lemma row_placed c pre s post st0 final :
  well_sized st0 ->
  appends c s = true ->
  run cfg (pre ++ s :: post) st0 = Returned tt final ->
  stray_store final = false ->
  exists st,
    run cfg pre st0 = Returned tt st /\
    stray_store st = false /\
    array_of c final !! Z.to_nat (current c st) = Some (written cfg s st).
Proof.
  intros Hw0 Happ Hrun Hs.
  destruct (run_split _ _ _ _ _ Hrun) as (st & Hpre & Hsc & Hpost).
  assert (state_of (run cfg post (effect cfg s st)) = Some final) as Hpost'
    by (by rewrite Hpost).
  assert (stray_store (effect cfg s st) = false) as Hs1 by (eapply run_stray; eauto).
  assert (well_sized st) as Hw.
  { apply (run_well_sized cfg pre st0); [done|by rewrite Hpre]. }
  destruct (effect_in_range s st c Hw Hs1 Happ) as [H0 Hlt].
  destruct (effect_current cfg s st c Hw Hs1) as [Hcur _]. rewrite Happ in Hcur.
  exists st. split; [done|]. split; [by apply (effect_stray cfg s)|].
  pose proof (run_rows_kept post _ final c (effect_well_sized cfg s st Hw) Hpost' Hs) as Hkept.
  rewrite <- (lookup_take_lt _ (Z.to_nat (current c (effect cfg s st)))) by lia.
  rewrite Hkept, lookup_take_lt by lia.
  rewrite effect_array, Happ. apply list_lookup_insert_eq.
  rewrite length_array_of. destruct (Hw c) as [Hlen _]. lia.
Qed.

(** X7 (a row lands at its ordinal and stays): when a program runs to the
    end within bounds, the row a macro stored is, in the final state, at
    the index given by the number of earlier statements that append to the
    same array: the row is the macro's initialiser as evaluated when the
    macro ran, and nothing after it has moved or replaced it. *)
Theorem row_lands_at_its_ordinal
    (c : counter) (pre : list statement) (s : statement) (post : list statement)
    (final : State) :
  appends c s = true ->
  run cfg (pre ++ s :: post) initial_state = Returned tt final ->
  stray_store final = false ->
  exists st,
    run cfg pre initial_state = Returned tt st /\
    array_of c final !! Z.to_nat (registered c pre) = Some (written cfg s st).
Proof.
  intros Happ Hrun Hs.
  destruct (row_placed c pre s post initial_state final well_sized_initial Happ Hrun Hs)
    as (st & Hpre & Hs0 & Hrow).
  exists st. split; [done|].
  destruct (reached_within_bounds cfg pre st Hpre Hs0) as (_ & Hcur & _).
  by rewrite <- Hcur.
Qed.

(** ** Id variables keep their values *)

Lemma effect_lookup_kept s st x v :
  well_scoped s st = true ->
  lookup_var x (TypeIdVars st) = Some v ->
  lookup_var x (TypeIdVars (effect cfg s st)) = Some v.
Proof.
  intros Hsc Hx. destruct s; simpl in *; try done.
  destruct (String.eqb_spec x TypeIdName) as [->|]; [|done].
  by rewrite Hx in Hsc.
Qed.

Lemma run_lookup_kept p st st' x v :
  state_of (run cfg p st) = Some st' ->
  lookup_var x (TypeIdVars st) = Some v ->
  lookup_var x (TypeIdVars st') = Some v.
Proof.
  intros Hrun Hx.
  apply (run_invariant cfg (fun _ => True)
           (fun y => lookup_var x (TypeIdVars y) = Some v)) with (p := p) (st := st); auto.
  - intros s y _ Hsc Hy. by apply effect_lookup_kept.
  - by apply Forall_true.
Qed.

(** X8 (a member row resolves to its type): when a program runs to the
    end within bounds, a field or base row whose macro names the id
    variable [x] carries, as TypeId, the index of the type row stored by
    the type macro that declared [x]: looking that index up in the final
    type table gives the name and size registered there. *)
Theorem member_row_resolves_to_its_type
    (c : counter) (pre : list statement) (T x : string) (mid : list statement)
    (s : statement) (post : list statement) (final : State) :
  reads s = Some x ->
  appends c s = true ->
  run cfg (pre ++ MAKE_TYPE_ENTRY_WITH_ID T x :: mid ++ s :: post) initial_state
    = Returned tt final ->
  stray_store final = false ->
  exists m,
    array_of c final !! Z.to_nat (registered c (pre ++ MAKE_TYPE_ENTRY_WITH_ID T x :: mid))
      = Some (MemberRow m) /\
    TypeId m = registered TypePos pre /\
    s_DebugTypes final !! Z.to_nat (TypeId m)
      = Some (mkDebugTypeRow (Some T) (u32 (sizeof cfg T))).
Proof.
  intros Hreads Happ Hrun Hs.
  destruct (row_placed TypePos pre (MAKE_TYPE_ENTRY_WITH_ID T x) (mid ++ s :: post)
              initial_state final well_sized_initial eq_refl Hrun Hs)
    as (st0 & Hpre & Hs0 & Htype).
  destruct (reached_within_bounds cfg pre st0 Hpre Hs0) as (_ & Hcur0 & _).
  pose proof Hrun as Hrun2.
  change (pre ++ MAKE_TYPE_ENTRY_WITH_ID T x :: mid ++ s :: post)
    with (pre ++ (MAKE_TYPE_ENTRY_WITH_ID T x :: mid) ++ s :: post) in Hrun2.
  rewrite app_assoc in Hrun2.
  destruct (row_placed c _ s post initial_state final well_sized_initial Happ Hrun2 Hs)
    as (st2 & Hmid & Hs2 & Hrow).
  destruct (reached_within_bounds cfg _ st2 Hmid Hs2) as (_ & Hcur2 & _).
  assert (lookup_var x (TypeIdVars st2) = Some (currentTypePos st0)) as Hx.
  { rewrite run_app, Hpre in Hmid.
    assert (state_of (run cfg mid (effect cfg (MAKE_TYPE_ENTRY_WITH_ID T x) st0)) = Some st2)
      as Hmid'.
    { apply run_cons_Returned in Hmid as [_ Hmid]. by rewrite Hmid. }
    apply (run_lookup_kept mid _ st2 x _ Hmid'). simpl. by rewrite String.eqb_refl. }
  rewrite Hcur2 in Hrow. rewrite (Hcur0 TypePos) in Htype. simpl in Htype.
  rewrite list_lookup_fmap in Htype.
  destruct (s_DebugTypes final !! Z.to_nat (registered TypePos pre)) as [r|] eqn:Hr;
    [|discriminate]. injection Htype as ->.
  pose proof (Hcur0 TypePos) as Hpos0. simpl in Hpos0.
  destruct s; try discriminate Hreads; injection Hreads as ->;
    simpl in Hrow; rewrite Hx in Hrow; simpl in Hrow;
    (eexists; split; [exact Hrow|]); simpl; rewrite Hpos0; by rewrite Hr.
Qed.

(** ** When a program returns *)

Lemma is_declared_lookup x vars :
  is_declared x (map fst vars) =
  match lookup_var x vars with Some _ => true | None => false end.
Proof.
  induction vars as [|[y v] vars IH]; simpl; [done|].
  destruct (String.eqb x y); simpl; [done|exact IH].
Qed.

Lemma scoped_cons s p st :
  scoped (declared_names st) (s :: p) =
  well_scoped s st && scoped (declared_names (effect cfg s st)) p.
Proof.
  unfold declared_names.
  destruct s; simpl; rewrite ?is_declared_lookup;
    try destruct (lookup_var _ _); reflexivity.
Qed.

(** A store below the capacity is in range and passes its assertion. *)
Lemma effect_fits s st :
  well_sized st ->
  (forall c, appends c s = true -> current c st < capacity c) ->
  stray_store (effect cfg s st) = stray_store st /\ asserted s (effect cfg s st) = true.
Proof.
  intros Hw Hfit.
  assert (forall c, appends c s = true ->
            (Z.of_nat (array_length c st) <=? current c st) = false /\
            (u32 (current c st + 1) <=? capacity c) = true) as H.
  { intros c Hc. specialize (Hfit c Hc). destruct (Hw c) as [Hlen H0].
    pose proof (capacity_small c). rewrite u32_small by lia.
    split; [apply Z.leb_gt|apply Z.leb_le]; lia. }
  destruct s; simpl; unfold past_end;
    [ destruct (H GlobalPos eq_refl) as [H1 H2]
    | destruct (H TypePos eq_refl) as [H1 H2]
    | destruct (H BasePos eq_refl) as [H1 H2]
    | destruct (H FieldPos eq_refl) as [H1 H2]
    | destruct (H DefinePos eq_refl) as [H1 H2]
    | destruct (H TablePos eq_refl) as [H1 H2]
    | done ];
    simpl in H1, H2; rewrite H1, H2; by rewrite orb_false_r.
Qed.


Lemma scoped_compiles p st :
  scoped (declared_names st) p = true -> run cfg p st <> IllFormed.
Proof.
  revert st. induction p as [|s p IH]; intros st Hsc; [done|].
  rewrite scoped_cons in Hsc. apply andb_prop in Hsc as [Hws Hsc].
  simpl. unfold bind. rewrite expand_effect, Hws.
  destruct (_ && _); [done|]. by apply IH.
Qed.

(** With assertions compiled in, a statement that returns stored in
    range. *)
Lemma debug_step_in_bounds s st st' :
  assertions_enabled cfg = true ->
  well_sized st -> in_bounds st -> stray_store st = false ->
  expand cfg s st = Returned tt st' ->
  stray_store st' = false /\ in_bounds st'.
Proof.
  intros Hdbg Hw Hb Hs Hexp.
  assert (asserted s (effect cfg s st) = true) as Hassert.
  { rewrite expand_effect, Hdbg in Hexp.
    destruct (well_scoped s st); [|discriminate].
    destruct (asserted s (effect cfg s st)); [done|discriminate]. }
  apply expand_Returned in Hexp as [_ ->].
  assert (forall c, appends c s = true -> current c st < capacity c) as Hfit.
  { intros c Hc. destruct (Hw c) as [_ H0]. specialize (Hb c).
    pose proof (capacity_small c).
    destruct (Z.eq_dec (current c st) (capacity c)) as [Heq|]; [|lia].
    exfalso.
    assert (u32 (capacity c + 1) = capacity c + 1) as Hu.
    { apply u32_small. destruct c; vm_compute; split; congruence. }
    destruct s, c; try discriminate Hc; simpl in *;
      rewrite Heq, Hu in Hassert; apply Z.leb_le in Hassert; lia. }
  destruct (effect_fits s st Hw Hfit) as [Hstray _]. rewrite Hs in Hstray.
  split; [done|]. intros c.
  destruct (effect_current cfg s st c Hw Hstray) as [_ Hle]. specialize (Hb c). lia.
Qed.

Lemma debug_run_in_bounds p st st' :
  assertions_enabled cfg = true ->
  well_sized st -> in_bounds st -> stray_store st = false ->
  run cfg p st = Returned tt st' ->
  stray_store st' = false.
Proof.
  intros Hdbg. revert st. induction p as [|s p IH]; intros st Hw Hb Hs Hrun.
  - by injection Hrun as <-.
  - pose proof Hrun as Hrun'. apply run_cons_Returned in Hrun' as [Hws Hrest].
    assert (expand cfg s st = Returned tt (effect cfg s st)) as Hexp.
    { simpl in Hrun. unfold bind in Hrun. rewrite expand_effect, Hws in *.
      destruct (_ && _); [discriminate|done]. }
    destruct (debug_step_in_bounds s st _ Hdbg Hw Hb Hs Hexp) as [Hs1 Hb1].
    apply (IH (effect cfg s st)); auto using effect_well_sized.
Qed.

(** X2 (a debug build that returns stayed in bounds): with assertions
    compiled in, whenever a program started in the initial state runs to
    the end, no store went past the end of an array, and each counter ends
    as the number of rows appended to its array, at most the capacity. *)
Theorem debug_returns_only_in_bounds (p : list statement) (st : State) :
  assertions_enabled cfg = true ->
  run cfg p initial_state = Returned tt st ->
  stray_store st = false /\
  forall c, current c st = registered c p /\ registered c p <= capacity c.
Proof.
  intros Hdbg Hrun.
  assert (stray_store st = false) as Hs.
  { apply (debug_run_in_bounds p initial_state);
      auto using well_sized_initial, in_bounds_initial. }
  split; [done|]. intros c.
  destruct (reached_within_bounds cfg p st Hrun Hs) as (_ & Hcur & _).
  split; [done|]. rewrite <- Hcur.
  apply (run_in_bounds cfg p initial_state);
    auto using well_sized_initial, in_bounds_initial.
  by rewrite Hrun.
Qed.

(** X3 (a debug build halts on overflow): with assertions compiled in, a
    well-scoped program that appends more rows to some array than the
    array holds does not run to the end: started in the initial state it
    halts on a failed assertion. *)
Theorem debug_overflow_halts (p : list statement) (c : counter) :
  assertions_enabled cfg = true ->
  scoped [] p = true ->
  capacity c < registered c p ->
  exists st, run cfg p initial_state = AssertionFailed st.
Proof.
  intros Hdbg Hsc Hover.
  destruct (run cfg p initial_state) as [[] st|st|] eqn:Hrun.
  - exfalso.
    assert (stray_store st = false) as Hs.
    { apply (debug_run_in_bounds p initial_state);
        auto using well_sized_initial, in_bounds_initial. }
    destruct (reached_within_bounds cfg p st Hrun Hs) as (_ & Hcur & _).
    assert (in_bounds st) as Hb.
    { apply (run_in_bounds cfg p initial_state);
        auto using well_sized_initial, in_bounds_initial. by rewrite Hrun. }
    specialize (Hb c). rewrite Hcur in Hb. lia.
  - by exists st.
  - exfalso. by apply (scoped_compiles p initial_state).
Qed.

(** ** Running the pass again *)

Lemma arrays_array_of st st' c : arrays st = arrays st' -> array_of c st = array_of c st'.
Proof. unfold arrays. intros [= H1 H2 H3 H4 H5 H6]. destruct c; simpl; congruence. Qed.

Lemma written_same_locals s st st' :
  same_locals st st' -> written cfg s st' = written cfg s st.
Proof.
  intros [Hc Hv]. destruct s; simpl; rewrite ?Hv; try reflexivity.
  by rewrite Hc.
Qed.

Lemma well_scoped_same_locals s st st' :
  same_locals st st' -> well_scoped s st' = well_scoped s st.
Proof. intros [_ Hv]. destruct s; simpl; by rewrite ?Hv. Qed.

Lemma effect_same_locals s st st' :
  same_locals st st' -> same_locals (effect cfg s st) (effect cfg s st').
Proof.
  intros [Hc Hv]. split.
  - intros c.
    pose proof (Hc TablePos). pose proof (Hc GlobalPos). pose proof (Hc TypePos).
    pose proof (Hc BasePos). pose proof (Hc FieldPos). pose proof (Hc DefinePos).
    destruct s, c; simpl in *; congruence.
  - pose proof (Hc TypePos) as Ht. destruct s; simpl in *; congruence.
Qed.

(** A store of the row that is already there changes no array. *)
Lemma effect_arrays_same s st :
  (forall c, appends c s = true ->
     array_of c st !! Z.to_nat (current c st) = Some (written cfg s st)) ->
  arrays (effect cfg s st) = arrays st.
Proof.
  intros H.
  assert (forall {A} (f : A -> row) (l : list A) i x,
            (f <$> l) !! i = Some (f x) ->
            (forall a b, f a = f b -> a = b) -> <[i := x]> l = l) as Hid.
  { intros A f l i x Hl Hinj. apply list_insert_id.
    rewrite list_lookup_fmap in Hl. destruct (l !! i) as [y|]; [|discriminate].
    injection Hl as Hl. by rewrite (Hinj _ _ Hl). }
  unfold arrays.
  destruct s; simpl; unfold array_store;
    [ pose proof (H GlobalPos eq_refl) as Hrow
    | pose proof (H TypePos eq_refl) as Hrow
    | pose proof (H BasePos eq_refl) as Hrow
    | pose proof (H FieldPos eq_refl) as Hrow
    | pose proof (H DefinePos eq_refl) as Hrow
    | pose proof (H TablePos eq_refl) as Hrow
    | reflexivity ];
    simpl in Hrow; (apply Hid in Hrow; [|by intros ?? [=]]); rewrite Hrow; reflexivity.
Qed.

(** The row a statement stores is still there when the program ends. *)
Lemma row_placed_here s post st final :
  well_sized st ->
  run cfg (s :: post) st = Returned tt final ->
  stray_store final = false ->
  forall c, appends c s = true ->
    array_of c final !! Z.to_nat (current c st) = Some (written cfg s st).
Proof.
  intros Hw Hrun Hs c Hc.
  destruct (row_placed c [] s post st final Hw Hc Hrun Hs) as (st' & Hnil & _ & Hrow).
  by injection Hnil as <-.
Qed.

(** A second run of a program, over the arrays its first run left, does
    what the first run did to the locals and changes no array. *)
Lemma second_run p1 p2 st1 st2 final :
  well_sized st1 -> well_sized st2 ->
  run cfg (p1 ++ p2) st1 = Returned tt final ->
  stray_store final = false ->
  same_locals st1 st2 ->
  arrays st2 = arrays final ->
  stray_store st2 = false ->
  exists st1' st2',
    run cfg p1 st1 = Returned tt st1' /\
    run cfg p1 st2 = Returned tt st2' /\
    same_locals st1' st2' /\
    arrays st2' = arrays final /\
    stray_store st2' = false.
Proof.
  revert st1 st2. induction p1 as [|s p1 IH]; intros st1 st2 Hw1 Hw2 Hrun Hs Hloc Harr Hs2.
  - exists st1, st2. split; [done|]. split; [done|]. split; [exact Hloc|]. by split.
  - pose proof Hrun as Hrun'. simpl app in Hrun'.
    apply run_cons_Returned in Hrun' as [Hws Hrest].
    assert (state_of (run cfg (p1 ++ p2) (effect cfg s st1)) = Some final) as Hrest'
      by (by rewrite Hrest).
    assert (stray_store (effect cfg s st1) = false) as Hs1 by (eapply run_stray; eauto).
    pose proof (row_placed_here s (p1 ++ p2) st1 final Hw1 Hrun Hs) as Hrow.
    assert (forall c, appends c s = true -> current c st2 < capacity c) as Hfit.
    { intros c Hc. destruct Hloc as [Hcur _]. rewrite Hcur.
      by apply (effect_in_range s st1 c Hw1 Hs1). }
    destruct (effect_fits s st2 Hw2 Hfit) as [Hstray Hassert]. rewrite Hs2 in Hstray.
    assert (arrays (effect cfg s st2) = arrays final) as Harr'.
    { rewrite <- Harr. apply effect_arrays_same. intros c Hc.
      rewrite (arrays_array_of st2 final c Harr), (written_same_locals s st1 st2 Hloc).
      destruct Hloc as [Hcur _]. rewrite Hcur. by apply Hrow. }
    destruct (IH (effect cfg s st1) (effect cfg s st2))
      as (st1' & st2' & Hr1 & Hr2 & Hloc' & Harr'' & Hs2');
      auto using effect_well_sized, effect_same_locals.
    exists st1', st2'. split.
    { simpl. unfold bind. rewrite expand_effect, Hws.
      simpl in Hrun. unfold bind in Hrun. rewrite expand_effect, Hws in Hrun.
      destruct (_ && _); [discriminate|exact Hr1]. }
    split.
    { simpl. unfold bind.
      rewrite expand_effect, (well_scoped_same_locals s st1 st2 Hloc), Hws, Hassert,
        andb_false_r. exact Hr2. }
    split; [exact Hloc'|]. by split.
Qed.

Lemma well_sized_reenter st : well_sized st -> well_sized (reenter st).
Proof. intros Hw c. destruct (Hw c) as [Hlen _]. by destruct c. Qed.

Lemma same_locals_reenter st : same_locals initial_state (reenter st).
Proof. split; [by intros []|done]. Qed.

Lemma registrations_write_no_header regs :
  forallb registration regs = true ->
  Forall (fun s => writes_header s = false) (regs ++ directory_entries).
Proof.
  intros Hregs. apply Forall_app. split.
  - apply Forall_forall. intros s Hs%list_elem_of_In.
    rewrite forallb_forall in Hregs. specialize (Hregs s Hs). by destruct s.
  - by repeat constructor.
Qed.

Lemma second_pass_state regs final k st :
  forallb registration regs = true ->
  run cfg (regs ++ FinalizeTables) initial_state = Returned tt final ->
  stray_store final = false ->
  state_of (run cfg (take k (regs ++ FinalizeTables)) (reenter final)) = Some st ->
  published st = published final.
Proof.
  intros Hregs Hrun Hs Hst.
  assert (well_sized final) as Hwf.
  { apply (run_well_sized cfg (regs ++ FinalizeTables) initial_state);
      [apply well_sized_initial|by rewrite Hrun]. }
  pose proof (registrations_write_no_header regs Hregs) as Hno.
  unfold FinalizeTables in *. rewrite app_assoc in *.
  set (q := regs ++ directory_entries) in *.
  (* the arrays *)
  assert (arrays st = arrays final) as Harr.
  { pose proof Hrun as Hrun'.
    rewrite <- (take_drop k (q ++ [Assign_DebugTableCount])) in Hrun'.
    destruct (second_run _ _ initial_state (reenter final) final
                well_sized_initial (well_sized_reenter final Hwf) Hrun' Hs
                (same_locals_reenter final) eq_refl Hs)
      as (st1' & st2' & _ & Hr2 & _ & Harr & _).
    rewrite Hr2 in Hst. by injection Hst as <-. }
  unfold published. f_equal; [exact Harr|].
  (* the header *)
  rewrite run_app in Hrun.
  destruct (run cfg q initial_state) as [[] before| |] eqn:Hq; try discriminate.
  apply run_cons_Returned in Hrun as [_ Hfinal]. injection Hfinal as Hfinal.
  destruct (le_lt_dec k (length q)) as [Hk|Hk].
  - rewrite take_app_le in Hst by done.
    apply (run_header cfg (take k q) (reenter final) st); [by apply Forall_take|done].
  - rewrite take_ge in Hst by (rewrite length_app; simpl; lia).
    rewrite <- (app_nil_r (q ++ [Assign_DebugTableCount])) in Hst at 1.
    rewrite <- app_assoc in Hst.
    assert (run cfg (q ++ [Assign_DebugTableCount]) initial_state = Returned tt final)
      as Hrun.
    { rewrite run_app, Hq. simpl. by rewrite <- Hfinal. }
    destruct (second_run q [Assign_DebugTableCount] initial_state (reenter final) final
                well_sized_initial (well_sized_reenter final Hwf) Hrun Hs
                (same_locals_reenter final) eq_refl Hs)
      as (st1' & st2q & Hr1 & Hr2 & [Hloc _] & _ & _).
    rewrite Hq in Hr1. injection Hr1 as <-.
    rewrite run_app, Hr2 in Hst. simpl in Hst. injection Hst as <-.
    assert (ClrDebugHeader st2q = ClrDebugHeader final) as Hh.
    { apply (run_header cfg q (reenter final) st2q); [done|by rewrite Hr2]. }
    pose proof (Hloc TablePos) as Ht. simpl in Ht |- *.
    rewrite Hh, Ht, <- Hfinal. reflexivity.
Qed.

(** X9 (running the pass again changes nothing): after a pass of
    registrations and finalisation has run within bounds, a second call,
    entered with the locals initialised afresh over the arrays and the
    header the first call left, runs to the end too, and in every state it
    passes through the six arrays and the header are exactly as the first
    call published them: every store of the second call writes the value
    that is already there, and the table count stays at its final value. *)
Theorem second_pass_changes_nothing
    (regs : list statement) (final : State) (k : nat) (st : State) :
  forallb registration regs = true ->
  run cfg (regs ++ FinalizeTables) initial_state = Returned tt final ->
  stray_store final = false ->
  state_of (run cfg (take k (regs ++ FinalizeTables)) (reenter final)) = Some st ->
  published st = published final /\
  exists final2,
    run cfg (regs ++ FinalizeTables) (reenter final) = Returned tt final2 /\
    published final2 = published final.
Proof.
  intros Hregs Hrun Hs Hst. split; [by apply (second_pass_state regs final k st)|].
  assert (well_sized final) as Hwf.
  { apply (run_well_sized cfg (regs ++ FinalizeTables) initial_state);
      [apply well_sized_initial|by rewrite Hrun]. }
  pose proof Hrun as Hrun'. rewrite <- (app_nil_r (regs ++ FinalizeTables)) in Hrun'.
  destruct (second_run _ _ initial_state (reenter final) final
              well_sized_initial (well_sized_reenter final Hwf) Hrun' Hs
              (same_locals_reenter final) eq_refl Hs)
    as (st1' & final2 & _ & Hr2 & _).
  exists final2. split; [exact Hr2|].
  apply (second_pass_state regs final (length (regs ++ FinalizeTables)) final2); try done.
  by rewrite firstn_all, Hr2.
Qed.

(** ** Names mark the rows *)

Lemma written_named c s st : appends c s = true -> name_of (written cfg s st) <> None.
Proof. destruct s, c; try discriminate; done. Qed.

Lemma effect_rows_named s st c :
  well_sized st ->
  stray_store (effect cfg s st) = false ->
  (forall i r, (i < Z.to_nat (current c st))%nat ->
     array_of c st !! i = Some r -> name_of r <> None) ->
  forall i r, (i < Z.to_nat (current c (effect cfg s st)))%nat ->
    array_of c (effect cfg s st) !! i = Some r -> name_of r <> None.
Proof.
  intros Hw Hs Hold i r Hi Hr.
  destruct (effect_current cfg s st c Hw Hs) as [Hcur _]. rewrite Hcur in Hi.
  rewrite effect_array in Hr. destruct (appends c s) eqn:Happ.
  - destruct (effect_in_range s st c Hw Hs Happ) as [H0 Hlt].
    destruct (decide (i = Z.to_nat (current c st))) as [->|Hne].
    + rewrite list_lookup_insert_eq in Hr.
      * injection Hr as <-. by apply (written_named c).
      * rewrite length_array_of. destruct (Hw c) as [Hlen _]. lia.
    + rewrite list_lookup_insert_ne in Hr by done. apply (Hold i r); [lia|done].
  - apply (Hold i r); [|done]. replace (current c st + 0) with (current c st) in Hi; lia.
Qed.

Lemma run_rows_named p st st' c :
  well_sized st ->
  state_of (run cfg p st) = Some st' ->
  stray_store st' = false ->
  (forall i r, (i < Z.to_nat (current c st))%nat ->
     array_of c st !! i = Some r -> name_of r <> None) ->
  forall i r, (i < Z.to_nat (current c st'))%nat ->
    array_of c st' !! i = Some r -> name_of r <> None.
Proof.
  revert st. induction p as [|s p IH]; intros st Hw Hrun Hs Hold.
  - simpl in Hrun. by injection Hrun as <-.
  - apply run_cons_state in Hrun as [_ [->|Hrun]].
    + by apply effect_rows_named.
    + assert (stray_store (effect cfg s st) = false) as Hs1 by (eapply run_stray; eauto).
      apply (IH (effect cfg s st)); [by apply effect_well_sized|done|done|].
      by apply effect_rows_named.
Qed.

(** X10 (a null name marks an unused slot): in every state a program
    passes through within bounds, starting from the initial state, an
    element of an array has a non-null name exactly when its index is
    below the counter of the array: the rows the macros stored all carry
    a name, and the slots from the counter upwards carry none. *)
Theorem name_marks_the_rows
    (c : counter) (p : list statement) (st : State) (i : nat) (r : row) :
  passes_through cfg p initial_state st ->
  stray_store st = false ->
  array_of c st !! i = Some r ->
  name_of r <> None <-> Z.of_nat i < current c st.
Proof.
  intros [k Hk] Hs Hr.
  pose proof (run_counter_grows (take k p) initial_state st c well_sized_initial Hk Hs)
    as H0.
  assert (0 <= current c st) as Hpos by (by destruct c).
  split.
  - intros Hname. destruct (Z.lt_ge_cases (Z.of_nat i) (current c st)) as [|Hge]; [done|].
    exfalso. apply Hname.
    pose proof (run_slots_untouched (take k p) initial_state st c well_sized_initial Hk Hs)
      as Hdrop.
    assert (drop (Z.to_nat (current c st)) (array_of c st)
              !! (i - Z.to_nat (current c st))%nat = Some r) as Hr'.
    { rewrite lookup_drop. by replace (Z.to_nat (current c st) + (i - Z.to_nat (current c st)))%nat
        with i by lia. }
    rewrite Hdrop, array_of_initial, drop_replicate in Hr'.
    apply lookup_replicate in Hr' as [-> _]. by destruct c.
  - intros Hlt.
    apply (run_rows_named (take k p) initial_state st c well_sized_initial Hk Hs)
      with (i := i); [|lia|done].
    intros j x Hj. destruct c; simpl in Hj; lia.
Qed.

End WholePrograms.

(** * Instances of the whole-program theorems *)

(** An instance: the whole pass of a debug build. *)
Lemma debug_returns_only_in_bounds_witness :
  assertions_enabled debug_build = true /\
  run debug_build (PopulateClrDebugHeaders_body debug_build) initial_state
    = Returned tt (state_after debug_build (PopulateClrDebugHeaders_body debug_build)) /\
  stray_store (state_after debug_build (PopulateClrDebugHeaders_body debug_build)) = false.
Proof.
  assert (assertions_enabled debug_build = true) as H1 by reflexivity.
  assert (run debug_build (PopulateClrDebugHeaders_body debug_build) initial_state
          = Returned tt (state_after debug_build (PopulateClrDebugHeaders_body debug_build)))
    as H2 by (vm_compute; reflexivity).
  split; [exact H1|]. split; [exact H2|].
  exact (proj1 (debug_returns_only_in_bounds debug_build _ _ H1 H2)).
Defined.

(** An instance: fifty-one globals in a debug build. *)
Lemma debug_overflow_halts_witness :
  assertions_enabled debug_build = true /\
  scoped [] (fifty_globals ++ [MAKE_GLOBAL_ENTRY "g_extra"]) = true /\
  capacity GlobalPos < registered GlobalPos (fifty_globals ++ [MAKE_GLOBAL_ENTRY "g_extra"]) /\
  exists st,
    run debug_build (fifty_globals ++ [MAKE_GLOBAL_ENTRY "g_extra"]) initial_state
      = AssertionFailed st.
Proof.
  assert (assertions_enabled debug_build = true) as H1 by reflexivity.
  assert (scoped [] (fifty_globals ++ [MAKE_GLOBAL_ENTRY "g_extra"]) = true) as H2
    by (vm_compute; reflexivity).
  assert (capacity GlobalPos
          < registered GlobalPos (fifty_globals ++ [MAKE_GLOBAL_ENTRY "g_extra"])) as H3
    by (vm_compute; reflexivity).
  split; [exact H1|]. split; [exact H2|]. split; [exact H3|].
  exact (debug_overflow_halts debug_build _ GlobalPos H1 H2 H3).
Defined.

(** An instance: the field rows of the first five statements of the real
    pass, seen again after all the registrations. *)
Lemma rows_never_rewritten_witness :
  well_sized (state_after debug_build (take 5 registrations_head)) /\
  passes_through debug_build (drop 5 (registrations debug_build))
    (state_after debug_build (take 5 registrations_head))
    (state_after debug_build (registrations debug_build)) /\
  stray_store (state_after debug_build (registrations debug_build)) = false /\
  current FieldPos (state_after debug_build (take 5 registrations_head))
    <= current FieldPos (state_after debug_build (registrations debug_build)) /\
  take (Z.to_nat (current FieldPos (state_after debug_build (take 5 registrations_head))))
    (array_of FieldPos (state_after debug_build (registrations debug_build))) =
  take (Z.to_nat (current FieldPos (state_after debug_build (take 5 registrations_head))))
    (array_of FieldPos (state_after debug_build (take 5 registrations_head))).
Proof.
  assert (well_sized (state_after debug_build (take 5 registrations_head))) as H1.
  { intros c. destruct c; vm_compute; split; congruence. }
  assert (passes_through debug_build (drop 5 (registrations debug_build))
            (state_after debug_build (take 5 registrations_head))
            (state_after debug_build (registrations debug_build))) as H2.
  { exists 232%nat. vm_compute. reflexivity. }
  assert (stray_store (state_after debug_build (registrations debug_build)) = false) as H3
    by (vm_compute; reflexivity).
  split; [exact H1|]. split; [exact H2|]. split; [exact H3|].
  exact (rows_never_rewritten debug_build FieldPos _ _ _ H1 H2 H3).
Defined.

(** An instance: the type table after the registrations of the real
    pass. *)
Lemma unused_slots_stay_zero_witness :
  passes_through debug_build (registrations debug_build) initial_state
    (state_after debug_build (registrations debug_build)) /\
  stray_store (state_after debug_build (registrations debug_build)) = false /\
  array_of TypePos (state_after debug_build (registrations debug_build)) =
  take (Z.to_nat (current TypePos (state_after debug_build (registrations debug_build))))
    (array_of TypePos (state_after debug_build (registrations debug_build))) ++
  replicate
    (Z.to_nat (capacity TypePos
               - current TypePos (state_after debug_build (registrations debug_build))))
    (zero_row TypePos).
Proof.
  assert (passes_through debug_build (registrations debug_build) initial_state
            (state_after debug_build (registrations debug_build))) as H1.
  { exists 237%nat. vm_compute. reflexivity. }
  assert (stray_store (state_after debug_build (registrations debug_build)) = false) as H2
    by (vm_compute; reflexivity).
  split; [exact H1|]. split; [exact H2|].
  exact (unused_slots_stay_zero debug_build TypePos _ _ H1 H2).
Defined.

(** An instance: the registrations of the real pass leave the directory
    alone. *)
Lemma untouched_array_unchanged_witness :
  registered TablePos (registrations debug_build) = 0 /\
  passes_through debug_build (registrations debug_build) initial_state
    (state_after debug_build (registrations debug_build)) /\
  stray_store (state_after debug_build (registrations debug_build)) = false /\
  array_of TablePos (state_after debug_build (registrations debug_build))
    = array_of TablePos initial_state.
Proof.
  assert (registered TablePos (registrations debug_build) = 0) as H1
    by (vm_compute; reflexivity).
  assert (passes_through debug_build (registrations debug_build) initial_state
            (state_after debug_build (registrations debug_build))) as H2.
  { exists 237%nat. vm_compute. reflexivity. }
  assert (stray_store (state_after debug_build (registrations debug_build)) = false) as H3
    by (vm_compute; reflexivity).
  split; [exact H1|]. split; [exact H2|]. split; [exact H3|].
  exact (proj1 (untouched_array_unchanged debug_build TablePos _ _ _ H1 H2 H3)).
Defined.

(** An instance: the fifth statement of the real pass, the field [m_Link]
    of [Thread], is the second field row when the registrations end. *)
Lemma row_lands_at_its_ordinal_witness :
  appends FieldPos (MAKE_FIELD_ENTRY "Thread" "m_Link") = true /\
  run debug_build
    (take 4 registrations_head ++ MAKE_FIELD_ENTRY "Thread" "m_Link"
       :: drop 5 (registrations debug_build))
    initial_state
    = Returned tt (state_after debug_build (registrations debug_build)) /\
  stray_store (state_after debug_build (registrations debug_build)) = false /\
  exists st,
    run debug_build (take 4 registrations_head) initial_state = Returned tt st /\
    array_of FieldPos (state_after debug_build (registrations debug_build))
      !! Z.to_nat (registered FieldPos (take 4 registrations_head))
    = Some (written debug_build (MAKE_FIELD_ENTRY "Thread" "m_Link") st).
Proof.
  assert (appends FieldPos (MAKE_FIELD_ENTRY "Thread" "m_Link") = true) as H1
    by reflexivity.
  assert (run debug_build
            (take 4 registrations_head ++ MAKE_FIELD_ENTRY "Thread" "m_Link"
               :: drop 5 (registrations debug_build))
            initial_state
          = Returned tt (state_after debug_build (registrations debug_build))) as H2
    by (vm_compute; reflexivity).
  assert (stray_store (state_after debug_build (registrations debug_build)) = false) as H3
    by (vm_compute; reflexivity).
  split; [exact H1|]. split; [exact H2|]. split; [exact H3|].
  exact (row_lands_at_its_ordinal debug_build FieldPos _ _ _ _ H1 H2 H3).
Defined.

(** An instance: that same field row carries TypeId 1, and row 1 of the
    type table is [Thread]. *)
Lemma member_row_resolves_to_its_type_witness :
  reads (MAKE_FIELD_ENTRY "Thread" "m_Link") = Some "ThreadTypeId"%string /\
  appends FieldPos (MAKE_FIELD_ENTRY "Thread" "m_Link") = true /\
  run debug_build
    (take 3 registrations_head ++ MAKE_TYPE_ENTRY_WITH_ID "Thread" "ThreadTypeId"
       :: [] ++ MAKE_FIELD_ENTRY "Thread" "m_Link" :: drop 5 (registrations debug_build))
    initial_state
    = Returned tt (state_after debug_build (registrations debug_build)) /\
  stray_store (state_after debug_build (registrations debug_build)) = false /\
  exists m,
    TypeId m = 1 /\
    s_DebugTypes (state_after debug_build (registrations debug_build)) !! Z.to_nat (TypeId m)
      = Some (mkDebugTypeRow (Some "Thread") 16).
Proof.
  assert (reads (MAKE_FIELD_ENTRY "Thread" "m_Link") = Some "ThreadTypeId"%string) as H1
    by reflexivity.
  assert (appends FieldPos (MAKE_FIELD_ENTRY "Thread" "m_Link") = true) as H2
    by reflexivity.
  assert (run debug_build
            (take 3 registrations_head ++ MAKE_TYPE_ENTRY_WITH_ID "Thread" "ThreadTypeId"
               :: [] ++ MAKE_FIELD_ENTRY "Thread" "m_Link"
               :: drop 5 (registrations debug_build))
            initial_state
          = Returned tt (state_after debug_build (registrations debug_build))) as H3
    by (vm_compute; reflexivity).
  assert (stray_store (state_after debug_build (registrations debug_build)) = false) as H4
    by (vm_compute; reflexivity).
  split; [exact H1|]. split; [exact H2|]. split; [exact H3|]. split; [exact H4|].
  destruct (member_row_resolves_to_its_type debug_build FieldPos _ _ _ _ _ _ _ H1 H2 H3 H4)
    as (m & _ & Hid & Htype).
  assert (registered TypePos (take 3 registrations_head) = 1) as Hr
    by (vm_compute; reflexivity).
  rewrite Hr in Hid. exists m. split; [exact Hid|].
  rewrite Hid in Htype |- *. vm_compute in Htype |- *. exact Htype.
Defined.

(** An instance: the [Point] pass entered a second time, two statements
    in. *)
Lemma second_pass_changes_nothing_witness :
  forallb registration Point_registrations = true /\
  run debug_build (Point_registrations ++ FinalizeTables) initial_state
    = Returned tt (state_after debug_build (Point_registrations ++ FinalizeTables)) /\
  stray_store (state_after debug_build (Point_registrations ++ FinalizeTables)) = false /\
  state_of
    (run debug_build (take 2 (Point_registrations ++ FinalizeTables))
       (reenter (state_after debug_build (Point_registrations ++ FinalizeTables))))
    = Some (state_from debug_build (take 2 (Point_registrations ++ FinalizeTables))
              (reenter (state_after debug_build (Point_registrations ++ FinalizeTables)))) /\
  published
    (state_from debug_build (take 2 (Point_registrations ++ FinalizeTables))
       (reenter (state_after debug_build (Point_registrations ++ FinalizeTables))))
  = published (state_after debug_build (Point_registrations ++ FinalizeTables)).
Proof.
  assert (forallb registration Point_registrations = true) as H1 by reflexivity.
  assert (run debug_build (Point_registrations ++ FinalizeTables) initial_state
          = Returned tt (state_after debug_build (Point_registrations ++ FinalizeTables)))
    as H2 by (vm_compute; reflexivity).
  assert (stray_store (state_after debug_build (Point_registrations ++ FinalizeTables))
          = false) as H3 by (vm_compute; reflexivity).
  assert (state_of
            (run debug_build (take 2 (Point_registrations ++ FinalizeTables))
               (reenter (state_after debug_build (Point_registrations ++ FinalizeTables))))
          = Some (state_from debug_build (take 2 (Point_registrations ++ FinalizeTables))
                    (reenter (state_after debug_build
                                (Point_registrations ++ FinalizeTables))))) as H4
    by (vm_compute; reflexivity).
  split; [exact H1|]. split; [exact H2|]. split; [exact H3|]. split; [exact H4|].
  exact (proj1 (second_pass_changes_nothing debug_build _ _ _ _ H1 H2 H3 H4)).
Defined.

(** An instance: slot 61 of the type table after the real pass is past
    the counter, and has no name. *)
Lemma name_marks_the_rows_witness :
  passes_through debug_build (PopulateClrDebugHeaders_body debug_build) initial_state
    (state_after debug_build (PopulateClrDebugHeaders_body debug_build)) /\
  stray_store (state_after debug_build (PopulateClrDebugHeaders_body debug_build)) = false /\
  array_of TypePos (state_after debug_build (PopulateClrDebugHeaders_body debug_build))
    !! 61%nat = Some (zero_row TypePos) /\
  ~ (name_of (zero_row TypePos) <> None).
Proof.
  assert (passes_through debug_build (PopulateClrDebugHeaders_body debug_build)
            initial_state
            (state_after debug_build (PopulateClrDebugHeaders_body debug_build))) as H1.
  { exists 243%nat. vm_compute. reflexivity. }
  assert (stray_store (state_after debug_build (PopulateClrDebugHeaders_body debug_build))
          = false) as H2 by (vm_compute; reflexivity).
  assert (array_of TypePos
            (state_after debug_build (PopulateClrDebugHeaders_body debug_build))
            !! 61%nat = Some (zero_row TypePos)) as H3 by (vm_compute; reflexivity).
  split; [exact H1|]. split; [exact H2|]. split; [exact H3|].
  intros Hname.
  apply (name_marks_the_rows debug_build TypePos _ _ 61%nat _ H1 H2 H3) in Hname.
  vm_compute in Hname. discriminate Hname.
Defined.
